(** * whisper-web: the transcription session controller and the transcript
    model, embedded from [hooks/useTranscriber.ts] and
    [components/Transcript.tsx], with the settings dialog of
    [components/AudioManager.tsx].

    The React hook is embedded as an explicit state record; every handler
    is the list of calls it makes (state setters, [alert],
    [webWorker.postMessage]) in source order, and rendering after a
    handler runs the effects whose dependencies changed.  The [Transcript]
    component is embedded the same way, its [editedChunks] object as a
    finite map. *)

From Stdlib Require Import ZArith List String Ascii Floats Lia Bool DecimalString.
From stdpp Require Import gmap strings list.

Local Open Scope string_scope.

Set Warnings "-register-all".

(** ** JavaScript values and built-ins used by the two files *)

Module JS.

(** Strings are sequences of 8-bit code units; every string literal of
    the source is ASCII. *)
Definition dquote : ascii := "034"%char.
Definition newline : ascii := "010"%char.
Definition quoted (s : string) : string :=
  String dquote (s ++ String dquote EmptyString).

(** [String.prototype.endsWith(searchString)]: the [searchLength] code
    units that end at the end of the string are compared with
    [searchString]; a receiver that is too short gives [false]. *)
Definition endsWith (s searchString : string) : bool :=
  let len := String.length s in
  let searchLength := String.length searchString in
  if (len <? searchLength)%nat then false
  else String.eqb (substring (len - searchLength) searchLength s) searchString.

(** [String.prototype.includes(searchString)] *)
Fixpoint startsWith (s searchString : string) : bool :=
  match searchString, s with
  | EmptyString, _ => true
  | String a searchString', String b s' =>
      Ascii.eqb a b && startsWith s' searchString'
  | String _ _, EmptyString => false
  end.

Fixpoint includes (s searchString : string) : bool :=
  startsWith s searchString
  || match s with
     | EmptyString => false
     | String _ rest => includes rest searchString
     end.

(** *** Numbers carried as payload

    The controller and the transcript never compute with the numbers of
    a worker message (progress, byte counts, throughput, timestamps):
    they are stored and printed.  A finite number whose
    [Number::toString] has no exponent (magnitude in [[1e-6, 1e21)], or
    zero) is determined by its shortest round-trip decimal, so it is
    represented by that decimal: [mantissa * 10 ^ (- scale)]. *)
Record number : Type := Number { mantissa : Z; scale : nat }.

Definition digit (d : Z) : ascii := ascii_of_nat (48 + Z.to_nat d).

(** exactly [k] decimal digits of [n], most significant first *)
Fixpoint fixedDigits (k : nat) (n : Z) (acc : string) : string :=
  match k with
  | O => acc
  | S k' => fixedDigits k' (n / 10) (String (digit (n mod 10)) acc)
  end.

Fixpoint dropZeros (rev_digits : list ascii) : list ascii :=
  match rev_digits with
  | c :: rest => if Ascii.eqb c "0" then dropZeros rest else rev_digits
  | [] => []
  end.

Definition stripTrailingZeros (s : string) : string :=
  string_of_list_ascii
    (rev (dropZeros (rev (list_ascii_of_string s)))).

Definition integerDigits (n : Z) : string :=
  DecimalString.NilZero.string_of_uint (N.to_uint (Z.to_N n)).

(** [Number::toString] in radix 10, for the numbers [number] holds. *)
Definition numberToString (x : number) : string :=
  let a := Z.abs (mantissa x) in
  let p := (10 ^ Z.of_nat (scale x))%Z in
  let frac := stripTrailingZeros (fixedDigits (scale x) (a mod p) "") in
  ((if (mantissa x <? 0)%Z then "-" else "")
     ++ integerDigits (a / p)
     ++ (if String.eqb frac "" then "" else "." ++ frac)).

(** *** Audio samples

    Samples are IEEE 754 numbers: arithmetic is done in binary64 (a
    JavaScript number), and a [Float32Array] element holds a binary32
    value, so that a store rounds to nearest even ([Math.fround]). *)
Definition fround (x : float) : float :=
  match Prim2SF x with
  | S754_finite s m e => SF2Prim (binary_round 24 128 s m e)
  | _ => x
  end.

(** *** JSON.stringify(value, null, 2) *)

Inductive JSON : Type :=
| JNull
| JNumber (n : number)
| JString (s : string)
| JArray (elements : list JSON)
| JObject (members : list (string * JSON)).

Definition hexDigit (n : nat) : ascii :=
  if (n <? 10)%nat then ascii_of_nat (48 + n) else ascii_of_nat (87 + n).

(** QuoteJSONString, one code unit *)
Definition quoteCodeUnit (c : ascii) : string :=
  let n := nat_of_ascii c in
  if Ascii.eqb c dquote then String "\" (String dquote "")
  else if Ascii.eqb c "\" then "\\"
  else if (n =? 8)%nat then "\b"
  else if (n =? 9)%nat then "\t"
  else if (n =? 10)%nat then "\n"
  else if (n =? 12)%nat then "\f"
  else if (n =? 13)%nat then "\r"
  else if (n <? 32)%nat
       then "\u00" ++ String (hexDigit (n / 16)) (String (hexDigit (n mod 16)) "")
  else String c "".

Fixpoint quoteBody (s : string) : string :=
  match s with
  | EmptyString => ""
  | String c rest => quoteCodeUnit c ++ quoteBody rest
  end.

Definition quoteJSONString (s : string) : string :=
  String dquote (quoteBody s ++ String dquote "").

Fixpoint join (separator : string) (parts : list string) : string :=
  match parts with
  | [] => ""
  | [p] => p
  | p :: rest => p ++ separator ++ join separator rest
  end.

Definition gap : string := "  ".

(** SerializeJSONProperty with a non-empty [gap]: [indent] is the
    indentation of the enclosing line ([stepback] in the standard). *)
Fixpoint serialize (indent : string) (v : JSON) : string :=
  let inner := indent ++ gap in
  let separator := "," ++ String newline inner in
  match v with
  | JNull => "null"
  | JNumber n => numberToString n
  | JString s => quoteJSONString s
  | JArray [] => "[]"
  | JArray elements =>
      "[" ++ String newline inner
          ++ join separator (List.map (serialize inner) elements)
          ++ String newline indent ++ "]"
  | JObject [] => "{}"
  | JObject members =>
      "{" ++ String newline inner
          ++ join separator
               (List.map (fun kv => quoteJSONString (fst kv) ++ ": "
                                      ++ serialize inner (snd kv)) members)
          ++ String newline indent ++ "}"
  end.

Definition stringify (v : JSON) : string := serialize "" v.

End JS.

(** ** The regular expression of [exportJSON] *)

Module Regex.

(** [\s] on 8-bit code units: tab, line feed, vertical tab, form feed,
    carriage return, space and no-break space. *)
Definition isWhiteSpace (c : ascii) : bool :=
  let n := nat_of_ascii c in
  ((9 <=? n) && (n <=? 13) || (n =? 32) || (n =? 160))%nat.

(** the longest prefix of [s] whose code units satisfy [p], and the rest *)
Fixpoint span (p : ascii -> bool) (s : string) : string * string :=
  match s with
  | EmptyString => ("", "")
  | String c rest =>
      if p c then let '(run, tail) := span p rest in (String c run, tail)
      else ("", s)
  end.

Fixpoint dropPrefix (prefix s : string) : option string :=
  match prefix, s with
  | EmptyString, _ => Some s
  | String a prefix', String b s' =>
      if Ascii.eqb a b then dropPrefix prefix' s' else None
  | String _ _, EmptyString => None
  end.

(** [X+] for a character class [X], taken greedily *)
Definition plus (p : ascii -> bool) (s : string) : option (string * string) :=
  match span p s with
  | (EmptyString, _) => None
  | (run, tail) => Some (run, tail)
  end.

Definition group1 : string := "    " ++ JS.quoted "timestamp" ++ ": ".

(** One match attempt of
    [/( {4}"timestamp": )\[\s+(\S+)\s+(\S+)\s+\]/] at the start of [s]:
    the captures [$2], [$3] and what follows the match.  The classes
    [\s] and [\S] are complementary and each [+] is followed by the other
    class or by the non-space ["]"], so a shorter repetition can never
    let the match go on: the greedy choice is the only one the
    backtracking matcher can succeed with. *)
Definition matchAt (s : string) : option (string * string * string) :=
  s1 ← dropPrefix (group1 ++ "[") s;
  '(_, s2) ← plus isWhiteSpace s1;
  '(g2, s3) ← plus (fun c => negb (isWhiteSpace c)) s2;
  '(_, s4) ← plus isWhiteSpace s3;
  '(g3, s5) ← plus (fun c => negb (isWhiteSpace c)) s4;
  '(_, s6) ← plus isWhiteSpace s5;
  s7 ← dropPrefix "]" s6;
  Some (g2, g3, s7).

(** [s.replace(regex, "$1[$2 $3]")] with the [g] flag: matches are found
    from left to right and the search resumes after each match; [skip]
    counts the code units of the current match still to be passed. *)
Fixpoint replaceFrom (skip : nat) (s : string) : string :=
  match s with
  | EmptyString => ""
  | String c rest =>
      match skip with
      | S k => replaceFrom k rest
      | O =>
          match matchAt s with
          | Some (g2, g3, after) =>
              (group1 ++ "[" ++ g2 ++ " " ++ g3 ++ "]")
                ++ replaceFrom (String.length rest - String.length after) rest
          | None => String c (replaceFrom 0 rest)
          end
      end
  end.

Definition replaceTimestamps (s : string) : string := replaceFrom 0 s.

End Regex.

(** ** String built-ins of the exports and of [titleCase] *)

Module Text.

(** [String.prototype.trim]: the code units it strips (WhiteSpace and
    LineTerminator) are the ones of [\s]. *)
Fixpoint trimStart (s : string) : string :=
  match s with
  | EmptyString => ""
  | String c rest => if Regex.isWhiteSpace c then trimStart rest else s
  end.

Definition reverse (s : string) : string :=
  string_of_list_ascii (rev (list_ascii_of_string s)).

Definition trimEnd (s : string) : string := reverse (trimStart (reverse s)).

Definition trim (s : string) : string := trimEnd (trimStart s).

(** [toLowerCase] on code units below 256 (Latin-1): the letters A to Z
    and the accented capitals, which all have their small letter 32 code
    units up. *)
Definition toLowerCaseUnit (c : ascii) : ascii :=
  let n := nat_of_ascii c in
  if ((65 <=? n) && (n <=? 90)
      || (192 <=? n) && (n <=? 222) && negb (n =? 215))%nat
  then ascii_of_nat (n + 32) else c.

(** [toUpperCase] of one code unit, for the code units [titleCase] gives
    it: word characters. *)
Definition toUpperCaseUnit (c : ascii) : ascii :=
  let n := nat_of_ascii c in
  if ((97 <=? n) && (n <=? 122))%nat then ascii_of_nat (n - 32) else c.

Fixpoint mapUnits (f : ascii -> ascii) (s : string) : string :=
  match s with
  | EmptyString => ""
  | String c rest => String (f c) (mapUnits f rest)
  end.

Definition toLowerCase (s : string) : string := mapUnits toLowerCaseUnit s.

(** [\w] *)
Definition isWord (c : ascii) : bool :=
  let n := nat_of_ascii c in
  ((48 <=? n) && (n <=? 57) || (65 <=? n) && (n <=? 90)
   || (97 <=? n) && (n <=? 122) || (n =? 95))%nat.

(** [.] matches every code unit but the line terminators. *)
Definition isLineTerminator (c : ascii) : bool :=
  let n := nat_of_ascii c in ((n =? 10) || (n =? 13))%nat.

(** [str.match(/\w+.?/g) || []]: the matches from left to right.  A match
    starts at a word character, takes the whole run of word characters
    and then one more code unit if there is one and it ends no line;
    [skip] counts the code units of the current match still to be
    passed. *)
Fixpoint wordMatches (skip : nat) (s : string) : list string :=
  match s with
  | EmptyString => []
  | String c rest =>
      match skip with
      | S k => wordMatches k rest
      | O =>
          if isWord c then
            let '(word, tail) := Regex.span isWord s in
            let m := match tail with
                     | String d _ =>
                         if isLineTerminator d then word
                         else word ++ String d ""
                     | EmptyString => word
                     end in
            m :: wordMatches (String.length m - 1) rest
          else wordMatches 0 rest
      end
  end.

(** A word: one or more word characters and nothing else. *)
Definition isWordString (w : string) : Prop :=
  w ≠ "" ∧ Forall (fun c => isWord c = true) (list_ascii_of_string w).

(** A string without white space. *)
Definition noSpace (s : string) : Prop :=
  Forall (fun c => Regex.isWhiteSpace c = false) (list_ascii_of_string s).

(** [a >= b] on payload numbers *)
Definition geq (a b : JS.number) : bool :=
  (JS.mantissa b * 10 ^ Z.of_nat (JS.scale a)
   <=? JS.mantissa a * 10 ^ Z.of_nat (JS.scale b))%Z.

End Text.

(** ** Web Audio's [AudioBuffer] *)

Module AudioBuffer.

(** An [AudioBuffer] has at least one channel (its constructor rejects a
    channel count of zero), so its data is the first channel and the list
    of the others.  Each channel is a [Float32Array]. *)
Record t : Type := Make {
  length : nat;
  channel0 : list float;
  otherChannels : list (list float)
}.

Definition channels (b : t) : list (list float) :=
  channel0 b :: otherChannels b.

Definition numberOfChannels (b : t) : nat := Datatypes.length (channels b).

(** [getChannelData(c)]; [None] is the IndexSizeError of a channel that
    does not exist. *)
Definition getChannelData (b : t) (c : nat) : option (list float) :=
  channels b !! c.

(** Every channel of a buffer holds [length] sample frames. *)
Definition wellFormed (b : t) : Prop :=
  Forall (fun ch => Datatypes.length ch = length b) (channels b).

End AudioBuffer.

(** ** [useTranscriber] *)

Module Transcriber.

Record ProgressItem : Type := {
  file : string;
  loaded : JS.number;
  progress : JS.number;
  total : JS.number;
  name : string;
  status : string
}.

(** A chunk, as the interfaces of the hook declare it:
    [{ text: string; timestamp: [number, number | null] }], an object
    with these two properties, [text] first, and no other. *)
Module Chunk.
Record t : Type := Make {
  text : string;
  timestamp : JS.number * option JS.number
}.
End Chunk.

Module TranscriberData.
Record t : Type := Make {
  isBusy : bool;
  tps : option JS.number;
  text : string;
  chunks : list Chunk.t
}.
End TranscriberData.

(** [message.data] of an [update] or [complete] message *)
Record TranscriberUpdateData : Type := {
  data_text : string;
  data_chunks : list Chunk.t;
  data_tps : option JS.number
}.

(** The messages of the worker, by their [status]. *)
Inductive WorkerMessage : Type :=
| Progress (file : string) (progress : JS.number)
| Update (data : TranscriberUpdateData)
| Complete (data : TranscriberUpdateData)
| Initiate (message : ProgressItem)
| Ready
| ModelReady
| ModelCheckComplete
| Error (message : string)
| Done (file : string)
| Other (status : string).

(** The requests posted to the worker, by their [action]. *)
Inductive WorkerRequest : Type :=
| check_model (model dtype : string) (gpu : bool)
| download_model (model dtype : string) (gpu : bool)
| transcribe (audio : list float) (model dtype : string) (gpu : bool)
    (subtask language : option string).

(** The state of the hook: one field per [useState]. *)
Record State : Type := {
  transcript : option TranscriberData.t;
  isBusy : bool;
  isModelLoading : bool;
  isModelReady : bool;
  isCheckingModel : bool;
  progressItems : list ProgressItem;
  model : string;
  subtask : string;
  dtype : string;
  gpu : bool;
  language : string
}.

(** What a handler can call: the state setters, [alert] and
    [webWorker.postMessage]. *)
Inductive Call : Type :=
| setTranscript (value : option TranscriberData.t)
| setIsBusy (value : bool)
| setIsModelLoading (value : bool)
| setIsModelReady (value : bool)
| setIsCheckingModel (value : bool)
| setProgressItems (updater : list ProgressItem -> list ProgressItem)
| setModel (value : string)
| setSubtask (value : string)
| setDtype (value : string)
| setGPU (value : bool)
| setLanguage (value : string)
| alert (text : string)
| postMessage (request : WorkerRequest).

(** What leaves the hook. *)
Inductive Output : Type :=
| Alerted (text : string)
| Posted (request : WorkerRequest).

Definition exec (c : Call) (s : State) : State :=
  match c with
  | setTranscript v =>
      {| transcript := v; isBusy := isBusy s;
         isModelLoading := isModelLoading s; isModelReady := isModelReady s;
         isCheckingModel := isCheckingModel s;
         progressItems := progressItems s; model := model s;
         subtask := subtask s; dtype := dtype s; gpu := gpu s;
         language := language s |}
  | setIsBusy v =>
      {| transcript := transcript s; isBusy := v;
         isModelLoading := isModelLoading s; isModelReady := isModelReady s;
         isCheckingModel := isCheckingModel s;
         progressItems := progressItems s; model := model s;
         subtask := subtask s; dtype := dtype s; gpu := gpu s;
         language := language s |}
  | setIsModelLoading v =>
      {| transcript := transcript s; isBusy := isBusy s;
         isModelLoading := v; isModelReady := isModelReady s;
         isCheckingModel := isCheckingModel s;
         progressItems := progressItems s; model := model s;
         subtask := subtask s; dtype := dtype s; gpu := gpu s;
         language := language s |}
  | setIsModelReady v =>
      {| transcript := transcript s; isBusy := isBusy s;
         isModelLoading := isModelLoading s; isModelReady := v;
         isCheckingModel := isCheckingModel s;
         progressItems := progressItems s; model := model s;
         subtask := subtask s; dtype := dtype s; gpu := gpu s;
         language := language s |}
  | setIsCheckingModel v =>
      {| transcript := transcript s; isBusy := isBusy s;
         isModelLoading := isModelLoading s; isModelReady := isModelReady s;
         isCheckingModel := v;
         progressItems := progressItems s; model := model s;
         subtask := subtask s; dtype := dtype s; gpu := gpu s;
         language := language s |}
  | setProgressItems updater =>
      {| transcript := transcript s; isBusy := isBusy s;
         isModelLoading := isModelLoading s; isModelReady := isModelReady s;
         isCheckingModel := isCheckingModel s;
         progressItems := updater (progressItems s); model := model s;
         subtask := subtask s; dtype := dtype s; gpu := gpu s;
         language := language s |}
  | setModel v =>
      {| transcript := transcript s; isBusy := isBusy s;
         isModelLoading := isModelLoading s; isModelReady := isModelReady s;
         isCheckingModel := isCheckingModel s;
         progressItems := progressItems s; model := v;
         subtask := subtask s; dtype := dtype s; gpu := gpu s;
         language := language s |}
  | setSubtask v =>
      {| transcript := transcript s; isBusy := isBusy s;
         isModelLoading := isModelLoading s; isModelReady := isModelReady s;
         isCheckingModel := isCheckingModel s;
         progressItems := progressItems s; model := model s;
         subtask := v; dtype := dtype s; gpu := gpu s;
         language := language s |}
  | setDtype v =>
      {| transcript := transcript s; isBusy := isBusy s;
         isModelLoading := isModelLoading s; isModelReady := isModelReady s;
         isCheckingModel := isCheckingModel s;
         progressItems := progressItems s; model := model s;
         subtask := subtask s; dtype := v; gpu := gpu s;
         language := language s |}
  | setGPU v =>
      {| transcript := transcript s; isBusy := isBusy s;
         isModelLoading := isModelLoading s; isModelReady := isModelReady s;
         isCheckingModel := isCheckingModel s;
         progressItems := progressItems s; model := model s;
         subtask := subtask s; dtype := dtype s; gpu := v;
         language := language s |}
  | setLanguage v =>
      {| transcript := transcript s; isBusy := isBusy s;
         isModelLoading := isModelLoading s; isModelReady := isModelReady s;
         isCheckingModel := isCheckingModel s;
         progressItems := progressItems s; model := model s;
         subtask := subtask s; dtype := dtype s; gpu := gpu s;
         language := v |}
  | alert _ | postMessage _ => s
  end.

Definition emitted (c : Call) : list Output :=
  match c with
  | alert text => [Alerted text]
  | postMessage request => [Posted request]
  | _ => []
  end.

(** The calls of a handler, in order: the state they leave and what
    they sent. *)
Fixpoint run (calls : list Call) (s : State) : State * list Output :=
  match calls with
  | [] => (s, [])
  | c :: rest =>
      let '(s', out) := run rest (exec c s) in (s', (emitted c ++ out)%list)
  end.

(** *** The worker message handler *)

Definition withProgress (item : ProgressItem) (p : JS.number) : ProgressItem :=
  {| file := file item; loaded := loaded item; progress := p;
     total := total item; name := name item; status := status item |}.

Definition transcriptOf (busy : bool) (d : TranscriberUpdateData) :
  TranscriberData.t :=
  {| TranscriberData.isBusy := busy;
     TranscriberData.text := data_text d;
     TranscriberData.tps := data_tps d;
     TranscriberData.chunks := data_chunks d |}.

Definition errorText (message : string) : string :=
  "An error occurred: " ++ JS.quoted message ++ ". Please file a bug report.".

Definition onMessage (message : WorkerMessage) : list Call :=
  match message with
  | Progress message_file message_progress =>
      [setProgressItems (fun prev =>
         List.map (fun item =>
                     if decide (file item = message_file)
                     then withProgress item message_progress
                     else item) prev)]
  | Update d => [setTranscript (Some (transcriptOf true d)); setIsBusy true]
  | Complete d => [setTranscript (Some (transcriptOf false d)); setIsBusy false]
  | Initiate message =>
      [setIsModelLoading true;
       setProgressItems (fun prev => (prev ++ [message])%list)]
  | Ready => [setIsModelLoading false]
  | ModelReady =>
      [setIsModelLoading false; setIsModelReady true; setIsCheckingModel false]
  | ModelCheckComplete => [setIsCheckingModel false]
  | Error message =>
      [setIsBusy false; setIsModelLoading false; setIsCheckingModel false;
       alert (errorText message)]
  | Done message_file =>
      [setProgressItems (fun prev =>
         filter (fun item => file item ≠ message_file) prev)]
  | Other _ => []
  end.

(** *** The operations of the [Transcriber] interface *)

Definition onInputChange : list Call := [setTranscript None].

Definition downloadModelRequest (s : State) : list Call :=
  [setIsModelReady false;
   postMessage (download_model (model s) (dtype s) (gpu s))].

Definition SCALING_FACTOR : float := PrimFloat.sqrt 2.

(** Reading a typed array past its end gives [undefined], which the
    arithmetic turns into NaN. *)
Definition sampleAt (samples : list float) (i : nat) : float :=
  nth i samples nan.

Definition mixedSample (left right : list float) (i : nat) : float :=
  JS.fround ((SCALING_FACTOR * (sampleAt left i + sampleAt right i)) / 2)%float.

(** The [for] loop of the stereo branch, [i] from 0 to [n - 1]; a store
    past the end of [audio] does nothing. *)
Definition mixLoop (left right : list float) (n : nat) (audio : list float) :
  list float :=
  fold_left (fun audio i => <[i := mixedSample left right i]> audio)
            (seq 0 n) audio.

(** The [audio] that [postRequest] computes from its argument; [None] when
    [getChannelData] throws. *)
Definition mixdown (audioData : AudioBuffer.t) : option (list float) :=
  if (AudioBuffer.numberOfChannels audioData =? 2)%nat then
    left ← AudioBuffer.getChannelData audioData 0;
    right ← AudioBuffer.getChannelData audioData 1;
    Some (mixLoop left right (AudioBuffer.length audioData)
                  (replicate (Datatypes.length left) 0%float))
  else AudioBuffer.getChannelData audioData 0.

Definition transcribeRequest (s : State) (audio : list float) : WorkerRequest :=
  transcribe audio (model s) (dtype s) (gpu s)
    (if negb (JS.endsWith (model s) ".en") then Some (subtask s) else None)
    (if negb (JS.endsWith (model s) ".en")
        && negb (String.eqb (language s) "auto")
     then Some (language s) else None).

Definition postRequest (s : State) (audioData : option AudioBuffer.t) :
  list Call :=
  match audioData with
  | Some audioData =>
      (setTranscript None :: setIsBusy true ::
       match mixdown audioData with
       | Some audio => [postMessage (transcribeRequest s audio)]
       | None => []
       end)%list
  | None => []
  end.

(** *** Rendering

    The effect with dependencies [[model, dtype, gpu]] runs after a render
    in which one of them differs from the previous render. *)
Definition effects (prev next : State) : list Call :=
  if decide (model prev = model next ∧ dtype prev = dtype next
             ∧ gpu prev = gpu next)
  then [] else [setIsModelReady false].

(** What can happen to a mounted hook: a worker message arrives, or the
    user interface calls one of the members of [Transcriber]. *)
Inductive Action : Type :=
| Receive (message : WorkerMessage)
| SetModel (value : string)
| SetDtype (value : string)
| SetGPU (value : bool)
| SetSubtask (value : string)
| SetLanguage (value : string)
| OnInputChange
| DownloadModel
| Start (audioData : option AudioBuffer.t).

Definition handler (a : Action) (s : State) : list Call :=
  match a with
  | Receive message => onMessage message
  | SetModel v => [setModel v]
  | SetDtype v => [setDtype v]
  | SetGPU v => [setGPU v]
  | SetSubtask v => [setSubtask v]
  | SetLanguage v => [setLanguage v]
  | OnInputChange => onInputChange
  | DownloadModel => downloadModelRequest s
  | Start audioData => postRequest s audioData
  end.

(** One action: the handler runs on the state of the last render, then
    the component renders and its effects run. *)
Definition step (a : Action) (s : State) : State * list Output :=
  let '(s1, out) := run (handler a s) s in
  (fst (run (effects s s1) s1), out).

Definition after (a : Action) (s : State) : State := fst (step a s).

Definition afterAll (actions : list Action) (s : State) : State :=
  fold_left (fun s a => after a s) actions s.

(** The readiness and busy flags the hook exposes. *)
Definition flags (s : State) : bool * bool * bool * bool :=
  (isModelReady s, isBusy s, isModelLoading s, isCheckingModel s).

(** *** Mounting

    [utils/Constants] is not part of the sources at hand; the hook takes
    its initial configuration from it. *)
Record Constants : Type := {
  getDefaultModel : string -> string;
  DEFAULT_SUBTASK : string;
  DEFAULT_DTYPE : string;
  DEFAULT_GPU : bool;
  getDefaultLanguage : string -> string
}.

(** The state after the first render and its effects, for the locale
    [i18n_language]. *)
Definition mounted (K : Constants) (i18n_language : string) : State :=
  {| transcript := None;
     isBusy := false;
     isModelLoading := false;
     isModelReady := false;
     isCheckingModel := true;
     progressItems := [];
     model := getDefaultModel K i18n_language;
     subtask := DEFAULT_SUBTASK K;
     dtype := DEFAULT_DTYPE K;
     gpu := DEFAULT_GPU K;
     language := getDefaultLanguage K i18n_language |}.

(** *** The Progress Tracker *)

(** The items of [progressItems] with the [file] key [f]. *)
Definition itemsFor (f : string) (s : State) : list ProgressItem :=
  filter (fun item => file item = f) (progressItems s).

(** A stream of actions in which no [initiate] arrives for a file that
    still has an item. *)
Fixpoint initiatesFresh (actions : list Action) (s : State) : Prop :=
  match actions with
  | [] => True
  | a :: rest =>
      match a with
      | Receive (Initiate message) => itemsFor (file message) s = []
      | _ => True
      end ∧ initiatesFresh rest (after a s)
  end.

Definition opensOrCloses (f : string) (a : Action) : Prop :=
  match a with
  | Receive (Initiate message) => file message = f
  | Receive (Done message_file) => message_file = f
  | _ => False
  end.

End Transcriber.

(** ** The [Transcript] component *)

Module Transcript.

Import Transcriber.

(** The [transcribedData] prop of the last render and the [useState]
    cells.  [editedChunks] is an object with numeric keys. *)
Record State : Type := {
  transcribedData : option TranscriberData.t;
  editedChunks : gmap nat string;
  playingChunk : option nat;
  editingChunk : option nat
}.

Definition initial : State :=
  {| transcribedData := None; editedChunks := ∅;
     playingChunk := None; editingChunk := None |}.

Definition setEditedChunks (updater : gmap nat string -> gmap nat string)
  (t : State) : State :=
  {| transcribedData := transcribedData t;
     editedChunks := updater (editedChunks t);
     playingChunk := playingChunk t; editingChunk := editingChunk t |}.

Definition setEditingChunk (value : option nat) (t : State) : State :=
  {| transcribedData := transcribedData t; editedChunks := editedChunks t;
     playingChunk := playingChunk t; editingChunk := value |}.

(** [chunks.forEach((chunk, index) => { acc[index] = chunk.text })],
    from index [index] on *)
Fixpoint forEachChunk (chunks : list Chunk.t) (index : nat)
  (acc : gmap nat string) : gmap nat string :=
  match chunks with
  | [] => acc
  | chunk :: rest =>
      forEachChunk rest (S index) (<[index := Chunk.text chunk]> acc)
  end.

Definition initialEditedChunks (chunks : list Chunk.t) : gmap nat string :=
  forEachChunk chunks 0 ∅.

(** A render in which the parent passes another [transcribedData]: the
    output of the hook after [setTranscript].  Every worker message
    carries an array of its own, so [transcribedData?.chunks] differs from
    the one of the render before and the effect runs; its guard lets it
    rebuild [editedChunks] only when there are chunks. *)
Definition receive (data : option TranscriberData.t) (t : State) : State :=
  let t' :=
    {| transcribedData := data; editedChunks := editedChunks t;
       playingChunk := playingChunk t; editingChunk := editingChunk t |} in
  match data with
  | Some d =>
      setEditedChunks
        (fun _ => initialEditedChunks (TranscriberData.chunks d)) t'
  | None => t'
  end.

(** [transcribedData?.chunks[chunkIndex]]: indexing past the end of an
    array gives [undefined]. *)
Definition chunkAt (t : State) (chunkIndex : nat) : option Chunk.t :=
  d ← transcribedData t; TranscriberData.chunks d !! chunkIndex.

(** [a ?? b] *)
Definition nullish {A : Type} (a : option A) (b : A) : A :=
  match a with
  | Some v => v
  | None => b
  end.

Definition getChunkText (t : State) (chunkIndex : nat) : string :=
  nullish (editedChunks t !! chunkIndex)
          (nullish (Chunk.text <$> chunkAt t chunkIndex) "").

Definition isChunkEdited (t : State) (chunkIndex : nat) : bool :=
  let originalText := nullish (Chunk.text <$> chunkAt t chunkIndex) "" in
  let editedText := nullish (editedChunks t !! chunkIndex) originalText in
  negb (String.eqb originalText editedText).

Definition handleTextChange (chunkIndex : nat) (newText : string)
  (t : State) : State :=
  setEditedChunks (fun prev => <[chunkIndex := newText]> prev) t.

(** [handleKeyDown] for the [Escape] key *)
Definition handleEscape (chunkIndex : nat) (t : State) : State :=
  let originalText := nullish (Chunk.text <$> chunkAt t chunkIndex) "" in
  setEditingChunk None
    (setEditedChunks (fun prev => <[chunkIndex := originalText]> prev) t).

(** The chunk list the component works on:
    [transcribedData?.chunks ?? []]. *)
Definition currentChunks (t : State) : list Chunk.t :=
  nullish (TranscriberData.chunks <$> transcribedData t) [].

(** [{ ...chunk, text: getChunkText(i) }] for a chunk of the declared
    shape: the spread copies the properties of the chunk in their own
    order, [text] then [timestamp], and [text] keeps its place when it is
    written again. *)
Definition editedChunkData (t : State) (i : nat) (chunk : Chunk.t) : JS.JSON :=
  JS.JObject
    [("text", JS.JString (getChunkText t i));
     ("timestamp",
      JS.JArray [JS.JNumber (fst (Chunk.timestamp chunk));
                 match snd (Chunk.timestamp chunk) with
                 | Some e => JS.JNumber e
                 | None => JS.JNull
                 end])].

(** The text [exportJSON] hands to [saveBlob]. *)
Definition exportJSON (t : State) : string :=
  let chunks := currentChunks t in
  let editedChunksData := JS.JArray (imap (editedChunkData t) chunks) in
  let jsonData := JS.stringify editedChunksData in
  Regex.replaceTimestamps jsonData.

(** Every index of the overlay is an index of the current chunk list. *)
Definition overlayValid (t : State) : Prop :=
  ∀ i : nat, is_Some (editedChunks t !! i) →
             (i < Datatypes.length (currentChunks t))%nat.

(** *** Keyboard and focus *)

Definition handleTextBlur (t : State) : State := setEditingChunk None t.

(** [handleKeyDown(e, chunkIndex)], with [e.key] and [e.shiftKey] *)
Definition handleKeyDown (key : string) (shiftKey : bool) (chunkIndex : nat)
  (t : State) : State :=
  let t1 :=
    if String.eqb key "Enter" && negb shiftKey
    then setEditingChunk None t else t in
  if String.eqb key "Escape" then handleEscape chunkIndex t1 else t1.

(** *** The other exports *)

(** The text [exportTXT] hands to [saveBlob]. *)
Definition exportTXT (t : State) : string :=
  let chunks := currentChunks t in
  Text.trim (JS.join "" (imap (fun i _ => getChunkText t i) chunks)).

(** The [for] loop of [exportSRT] from index [i] on, [srt] being the text
    built so far.  [formatSrtTimeRange] is a function of
    [utils/AudioUtils], which is not part of the sources at hand. *)
Fixpoint srtLoop (formatSrtTimeRange : JS.number -> JS.number -> string)
  (t : State) (chunks : list Chunk.t) (i : nat) (srt : string) : string :=
  match chunks with
  | [] => srt
  | chunk :: rest =>
      let srt1 := srt ++ JS.integerDigits (Z.of_nat (i + 1))
                      ++ String JS.newline "" in
      let srt2 := srt1
                    ++ formatSrtTimeRange
                         (fst (Chunk.timestamp chunk))
                         (nullish (snd (Chunk.timestamp chunk))
                                  (fst (Chunk.timestamp chunk)))
                    ++ String JS.newline "" in
      let srt3 := srt2 ++ getChunkText t i
                       ++ String JS.newline (String JS.newline "") in
      srtLoop formatSrtTimeRange t rest (S i) srt3
  end.

Definition exportSRT (formatSrtTimeRange : JS.number -> JS.number -> string)
  (t : State) : string :=
  srtLoop formatSrtTimeRange t (currentChunks t) 0 "".

(** The export buttons are rendered when
    [transcribedData && !transcribedData.isBusy]. *)
Definition exportAvailable (t : State) : bool :=
  match transcribedData t with
  | Some d => negb (TranscriberData.isBusy d)
  | None => false
  end.

(** *** Playing a chunk

    The hidden [audio] element behind [audioRef], which is mounted with
    the component: what the component writes to it ([src],
    [currentTime], [play()] and [pause()] as the [paused] flag) and the
    [timeupdate] listeners it holds, each a [handleTimeUpdate] closure
    known by its [endTime]. *)
Record AudioElement : Type := {
  src : string;
  currentTime : JS.number;
  paused : bool;
  listeners : list JS.number
}.

Definition setPlayingChunk (value : option nat) (t : State) : State :=
  {| transcribedData := transcribedData t; editedChunks := editedChunks t;
     playingChunk := value; editingChunk := editingChunk t |}.

Definition pause (audio : AudioElement) : AudioElement :=
  {| src := src audio; currentTime := currentTime audio; paused := true;
     listeners := listeners audio |}.

Fixpoint removeListener (endTime : JS.number) (ls : list JS.number) :
  list JS.number :=
  match ls with
  | [] => []
  | e :: rest =>
      if Text.geq e endTime && Text.geq endTime e then rest
      else e :: removeListener endTime rest
  end.

(** [playChunk(chunkIndex)]; [audioData] is the [url] of the prop of that
    name, when the prop is there. *)
Definition playChunk (audioData : option string) (chunkIndex : nat)
  (p : State * AudioElement) : State * AudioElement :=
  let '(t, audio) := p in
  match audioData with
  | None => p
  | Some url =>
      match chunkAt t chunkIndex with
      | None => p
      | Some chunk =>
          let startTime := fst (Chunk.timestamp chunk) in
          let endTime := nullish (snd (Chunk.timestamp chunk)) startTime in
          (setPlayingChunk (Some chunkIndex) t,
           {| src := url; currentTime := startTime; paused := false;
              listeners := (listeners audio ++ [endTime])%list |})
      end
  end.

(** One [handleTimeUpdate] closure, called for a [timeupdate] event *)
Definition handleTimeUpdate (endTime : JS.number)
  (p : State * AudioElement) : State * AudioElement :=
  let '(t, audio) := p in
  if Text.geq (currentTime audio) endTime then
    (setPlayingChunk None t,
     {| src := src audio; currentTime := currentTime audio; paused := true;
        listeners := removeListener endTime (listeners audio) |})
  else p.

(** The element reaches the time [now] and dispatches [timeupdate] to the
    listeners it holds at that moment, in the order they were added. *)
Definition timeupdate (now : JS.number) (p : State * AudioElement) :
  State * AudioElement :=
  let '(t, audio) := p in
  let audio1 :=
    {| src := src audio; currentTime := now; paused := paused audio;
       listeners := listeners audio |} in
  fold_left (fun p endTime => handleTimeUpdate endTime p)
            (listeners audio1) (t, audio1).

Definition stopPlaying (p : State * AudioElement) : State * AudioElement :=
  let '(t, audio) := p in (setPlayingChunk None t, pause audio).

(** The element is paused and no chunk is marked as playing. *)
Definition stopped (p : State * AudioElement) : Prop :=
  paused (snd p) = true ∧ playingChunk (fst p) = None.

End Transcript.

Import Transcriber.

(** ** Sample data *)

Definition K0 : Constants :=
  {| getDefaultModel := fun _ => "onnx-community/whisper-tiny";
     DEFAULT_SUBTASK := "transcribe";
     DEFAULT_DTYPE := "q8";
     DEFAULT_GPU := false;
     getDefaultLanguage := fun _ => "en" |}.

Definition s0 : State := mounted K0 "en".

Definition readyState : State := after (Receive ModelReady) s0.

Definition englishOnly : State := after (SetModel "Xenova/whisper-tiny.en") s0.

Definition autoLanguage : State := after (SetLanguage "auto") s0.

Definition mono : AudioBuffer.t :=
  AudioBuffer.Make 2 [0.5%float; 0.25%float] [].

Definition stereo : AudioBuffer.t :=
  AudioBuffer.Make 2 [1%float; 0.5%float] [[1%float; (-0.5)%float]].

Definition surround : AudioBuffer.t :=
  AudioBuffer.Make 1 [0.5%float] [[0.25%float]; [0.125%float]].

Definition modelFile : ProgressItem :=
  {| file := "onnx/encoder_model.onnx"; loaded := JS.Number 0 0;
     progress := JS.Number 0 0; total := JS.Number 0 0;
     name := "onnx-community/whisper-tiny"; status := "initiate" |}.

Definition configFile : ProgressItem :=
  {| file := "config.json"; loaded := JS.Number 0 0;
     progress := JS.Number 0 0; total := JS.Number 0 0;
     name := "onnx-community/whisper-tiny"; status := "initiate" |}.

(** The chunk list of the export scenarios. *)
Definition helloWorld : TranscriberUpdateData :=
  {| data_text := "Helloworld";
     data_chunks :=
       [Chunk.Make "Hello" (JS.Number 0 0, Some (JS.Number 15 1));
        Chunk.Make "world" (JS.Number 15 1, None)];
     data_tps := None |}.

(** The hook after the worker completed that transcription, and the
    component showing its output. *)
Definition completed : State := after (Receive (Complete helloWorld)) s0.

Definition shown : Transcript.State :=
  Transcript.receive (transcript completed) Transcript.initial.

(** ... with the second chunk edited *)
Definition edited : Transcript.State :=
  Transcript.handleTextChange 1 "World!" shown.

(** ... and after the user picked another input: [onInputChange] clears
    the output of the hook, which the component receives. *)
Definition cleared : Transcript.State :=
  Transcript.receive (transcript (after OnInputChange completed)) shown.

(** A transcript of two chunks with both their end times, as the
    component shows it. *)
Definition timed : Transcript.State :=
  Transcript.receive
    (Some (transcriptOf false
             {| data_text := "Helloworld";
                data_chunks :=
                  [Chunk.Make "Hello" (JS.Number 0 0, Some (JS.Number 15 1));
                   Chunk.Make "world" (JS.Number 15 1, Some (JS.Number 4 0))];
                data_tps := None |}))
    Transcript.initial.

(** Lines joined by line feeds. *)
Definition lines (ls : list string) : string :=
  JS.join (String JS.newline "") ls.

(** ** [AudioManager]: the settings dialog *)

Module AudioManager.

(** [word.charAt(0).toUpperCase() + word.slice(1)], for a match of the
    regular expression: it starts with a word character. *)
Definition capitalize (word : string) : string :=
  match word with
  | EmptyString => ""
  | String c rest => String (Text.toUpperCaseUnit c) rest
  end.

Definition titleCase (str : string) : string :=
  let str := Text.toLowerCase str in
  JS.join "" (List.map capitalize (Text.wordMatches 0 str)).

(** [MODELS] of [utils/Constants], which is not part of the sources at
    hand: model identifier to display name and language group. *)
Definition isModelMultilingual (MODELS : gmap string (string * string))
  (model : string) : bool :=
  negb (JS.endsWith model ".en")
  && match MODELS !! model with
     | Some (_, group) => String.eqb group ""
     | None => false
     end.

Definition getModelLanguage (MODELS : gmap string (string * string))
  (transcriber : State) : string :=
  match MODELS !! model transcriber with
  | Some (_, lang) =>
      if String.eqb lang "" then language transcriber else lang
  | None => language transcriber
  end.

(** The [value] and [disabled] attributes of the language [select], once
    the effect has set [isMultilingual] for the model of the hook. *)
Definition languageSelectValue (MODELS : gmap string (string * string))
  (transcriber : State) : string :=
  if isModelMultilingual MODELS (model transcriber)
  then language transcriber else getModelLanguage MODELS transcriber.

Definition languageSelectDisabled (MODELS : gmap string (string * string))
  (transcriber : State) : bool :=
  negb (isModelMultilingual MODELS (model transcriber)).

End AudioManager.

(** The configuration the hook holds. *)
Definition configuration (s : State) : string * string * bool * string * string :=
  (model s, dtype s, gpu s, subtask s, language s).

(** Whether an action posts to the worker by the look of it. *)
Definition posts (a : Action) : bool :=
  match a with
  | DownloadModel | Start (Some _) => true
  | _ => false
  end.

Definition silentPlayer : Transcript.AudioElement :=
  {| Transcript.src := ""; Transcript.currentTime := JS.Number 0 0;
     Transcript.paused := true; Transcript.listeners := [] |}.

Definition sampleModels : gmap string (string * string) :=
  {[ "onnx-community/whisper-tiny" := ("whisper-tiny", "");
     "onnx-community/whisper-tiny.en" := ("whisper-tiny.en", "en");
     "onnx-community/kb-whisper-tiny-ONNX" := ("kb-whisper-tiny", "sv") ]}.

(** The worker messages that clear [isModelLoading]. *)
Definition endsLoading (a : Action) : Prop :=
  match a with
  | Receive Ready | Receive ModelReady | Receive (Error _) => True
  | _ => False
  end.

(** [{ ...chunk, text }] for a text and a chunk: what [exportJSON] gives
    [JSON.stringify] for the chunk. *)
Definition chunkObject (text : string) (chunk : Chunk.t) : JS.JSON :=
  JS.JObject
    [("text", JS.JString text);
     ("timestamp",
      JS.JArray [JS.JNumber (fst (Chunk.timestamp chunk));
                 match snd (Chunk.timestamp chunk) with
                 | Some e => JS.JNumber e
                 | None => JS.JNull
                 end])].

(** The end of a chunk as JSON prints it. *)
Definition endText (chunk : Chunk.t) : string :=
  match snd (Chunk.timestamp chunk) with
  | Some e => JS.numberToString e
  | None => "null"
  end.

(** One chunk as [exportJSON] writes it: an object on four lines, with
    the timestamp on one of them. *)
Definition exportedChunk (text : string) (chunk : Chunk.t) : string :=
  "{" ++ String JS.newline ""
  ++ "    " ++ JS.quoted "text" ++ ": " ++ JS.quoteJSONString text ++ ","
  ++ String JS.newline ""
  ++ "    " ++ JS.quoted "timestamp" ++ ": ["
  ++ JS.numberToString (fst (Chunk.timestamp chunk)) ++ ", "
  ++ endText chunk
  ++ "]" ++ String JS.newline "" ++ "  }".

(** A transcript whose only chunk reads like a pretty-printed timestamp. *)
Definition timestampLookalike : Transcript.State :=
  Transcript.receive
    (Some (transcriptOf false
             {| data_text := "";
                data_chunks :=
                  [Chunk.Make (Regex.group1 ++ "[" ++ String JS.newline "1"
                                 ++ String JS.newline "2"
                                 ++ String JS.newline "]")
                              (JS.Number 0 0, None)];
                data_tps := None |}))
    Transcript.initial.

(** * Properties *)

Local Open Scope nat_scope.

(** ** The built-ins on small inputs *)

Example endsWith_samples :
  JS.endsWith "Xenova/whisper-tiny.en" ".en" = true
  ∧ JS.endsWith "onnx-community/whisper-tiny" ".en" = false
  ∧ JS.endsWith "en" ".en" = false.
Proof. repeat split; reflexivity. Qed.

Example numberToString_samples :
  JS.numberToString (JS.Number 15 1) = "1.5"
  ∧ JS.numberToString (JS.Number 0 0) = "0"
  ∧ JS.numberToString (JS.Number 2998 2) = "29.98"
  ∧ JS.numberToString (JS.Number (-5) 1) = "-0.5".
Proof. repeat split; reflexivity. Qed.

Example stringify_sample :
  JS.stringify (JS.JArray [JS.JObject [("a", JS.JArray []); ("b", JS.JNull)]])
  = lines ["["; "  {"; "    " ++ JS.quoted "a" ++ ": [],";
           "    " ++ JS.quoted "b" ++ ": null"; "  }"; "]"].
Proof. reflexivity. Qed.

(** A timestamp that is already on one line, or has three entries, does
    not match. *)
Example replaceTimestamps_samples :
  Regex.replaceTimestamps (Regex.group1 ++ "[ 1, 2 ]") = Regex.group1 ++ "[1, 2]"
  ∧ Regex.replaceTimestamps (Regex.group1 ++ "[1, 2]") = Regex.group1 ++ "[1, 2]"
  ∧ Regex.replaceTimestamps (Regex.group1 ++ "[ 1, 2, 3 ]")
    = Regex.group1 ++ "[ 1, 2, 3 ]".
Proof. repeat split; reflexivity. Qed.

Example fround_samples :
  JS.fround 0.5 = 0.5%float
  ∧ JS.fround 0x1.999999999999ap-4 = 0x1.99999ap-4%float
  ∧ JS.fround SCALING_FACTOR = 0x1.6a09e6p+0%float.
Proof. vm_compute. repeat split; reflexivity. Qed.

(** ** Rendering and single actions *)

Lemma effects_unchanged_config (prev next : State) :
  model prev = model next → dtype prev = dtype next → gpu prev = gpu next →
  effects prev next = [].
Proof.
  intros Hm Hd Hg. unfold effects.
  destruct (decide _) as [_ | Hn]; [reflexivity | tauto].
Qed.

Lemma effects_changed_config (prev next : State) :
  model prev ≠ model next ∨ dtype prev ≠ dtype next ∨ gpu prev ≠ gpu next →
  effects prev next = [setIsModelReady false].
Proof.
  intros H. unfold effects.
  destruct (decide _) as [(Hm & Hd & Hg) | _]; [| reflexivity].
  destruct H as [H | [H | H]]; contradiction.
Qed.

(** The effects of a render touch nothing but [isModelReady]. *)
Lemma effects_frame (prev next : State) :
  let s' := fst (run (effects prev next) next) in
  transcript s' = transcript next ∧ isBusy s' = isBusy next
  ∧ isModelLoading s' = isModelLoading next
  ∧ isCheckingModel s' = isCheckingModel next
  ∧ progressItems s' = progressItems next
  ∧ model s' = model next ∧ subtask s' = subtask next
  ∧ dtype s' = dtype next ∧ gpu s' = gpu next ∧ language s' = language next.
Proof.
  unfold effects. destruct (decide _); cbn; repeat split; reflexivity.
Qed.

Lemma effects_readiness (prev next : State) :
  isModelReady next = false →
  isModelReady (fst (run (effects prev next) next)) = false.
Proof.
  intros H. unfold effects. destruct (decide _); cbn; [exact H | reflexivity].
Qed.

Lemma mixdown_total (audioData : AudioBuffer.t) :
  ∃ audio, mixdown audioData = Some audio.
Proof.
  destruct audioData as [n c0 others]. unfold mixdown.
  unfold AudioBuffer.numberOfChannels, AudioBuffer.getChannelData,
    AudioBuffer.channels. cbn [AudioBuffer.channel0 AudioBuffer.otherChannels
                               AudioBuffer.length].
  destruct others as [| c1 rest]; cbn; [eauto |].
  destruct rest; cbn; eauto.
Qed.

(** ** Configuration setters and readiness *)

(** C1: a change of [model], [dtype] or [gpu] leaves [isModelReady] false
    whatever it was before; setting [language] or [subtask] leaves
    [isModelReady], [isBusy], [isModelLoading] and [isCheckingModel] as
    they were. *)
Theorem config_change_resets_readiness (s : State) :
  (∀ v, v ≠ model s → isModelReady (after (SetModel v) s) = false)
  ∧ (∀ v, v ≠ dtype s → isModelReady (after (SetDtype v) s) = false)
  ∧ (∀ v, v ≠ gpu s → isModelReady (after (SetGPU v) s) = false)
  ∧ (∀ v, flags (after (SetLanguage v) s) = flags s)
  ∧ (∀ v, flags (after (SetSubtask v) s) = flags s).
Proof.
  repeat split; intros v; try intros Hv; unfold after, step; cbn.
  - rewrite effects_changed_config by (cbn; auto). reflexivity.
  - rewrite effects_changed_config by (cbn; auto). reflexivity.
  - rewrite effects_changed_config by (cbn; auto). reflexivity.
  - rewrite effects_unchanged_config by reflexivity. reflexivity.
  - rewrite effects_unchanged_config by reflexivity. reflexivity.
Qed.

Lemma config_change_resets_readiness_witness :
  isModelReady readyState = true
  ∧ isModelReady (after (SetModel "onnx-community/whisper-base") readyState)
    = false
  ∧ isModelReady (after (SetDtype "fp32") readyState) = false
  ∧ isModelReady (after (SetGPU true) readyState) = false.
Proof.
  destruct (config_change_resets_readiness readyState) as (Hm & Hd & Hg & _).
  split; [reflexivity |].
  split; [apply Hm; discriminate |].
  split; [apply Hd; discriminate |].
  apply Hg; discriminate.
Defined.

(** ** Starting a transcription *)

Lemma start_with_buffer (s : State) (audioData : AudioBuffer.t)
  (audio : list float) :
  mixdown audioData = Some audio →
  postRequest s (Some audioData)
  = [setTranscript None; setIsBusy true;
     postMessage (transcribeRequest s audio)]
  ∧ snd (step (Start (Some audioData)) s)
    = [Posted (transcribeRequest s audio)]
  ∧ transcript (after (Start (Some audioData)) s) = None
  ∧ isBusy (after (Start (Some audioData)) s) = true.
Proof.
  intros Haudio. unfold after, step. cbn. rewrite Haudio. cbn.
  rewrite effects_unchanged_config by reflexivity.
  repeat split; reflexivity.
Qed.


(** ** The [error] message *)


(** ** Readiness after [downloadModel] *)

Lemma readiness_stays_false (a : Action) (s : State) :
  a ≠ Receive ModelReady → isModelReady s = false →
  isModelReady (after a s) = false.
Proof.
  intros Ha Hs. unfold after, step.
  destruct (run (handler a s) s) as [s1 out] eqn:Hrun. cbn [fst].
  apply effects_readiness.
  destruct a as [message | | | | | | | | audioData]; cbn in Hrun.
  - destruct message; cbn in Hrun; try congruence;
      injection Hrun as <- _; exact Hs.
  - injection Hrun as <- _; exact Hs.
  - injection Hrun as <- _; exact Hs.
  - injection Hrun as <- _; exact Hs.
  - injection Hrun as <- _; exact Hs.
  - injection Hrun as <- _; exact Hs.
  - injection Hrun as <- _; exact Hs.
  - injection Hrun as <- _; reflexivity.
  - destruct audioData as [audioData |]; cbn in Hrun.
    + destruct (mixdown audioData); cbn in Hrun;
        injection Hrun as <- _; exact Hs.
    + injection Hrun as <- _; exact Hs.
Qed.

Lemma readiness_stays_false_all (actions : list Action) (s : State) :
  Forall (fun a => a ≠ Receive ModelReady) actions →
  isModelReady s = false →
  isModelReady (afterAll actions s) = false.
Proof.
  intros Hall. revert s.
  induction Hall as [| a rest Ha _ IH]; intros s Hs; cbn; [exact Hs |].
  apply IH. apply readiness_stays_false; assumption.
Qed.

Lemma downloadModel_not_ready (s : State) :
  isModelReady (after DownloadModel s) = false.
Proof.
  unfold after, step. cbn. rewrite effects_unchanged_config by reflexivity.
  reflexivity.
Qed.

(** C6, the claim at a concrete state: a [ready] message after
    [downloadModel] does not make the model ready. *)
Lemma ready_does_not_restore_readiness :
  isModelReady (afterAll [DownloadModel; Receive Ready] readyState) = false.
Proof. vm_compute. reflexivity. Qed.

(** C6, as the code has it: after [downloadModel], [isModelReady] is false
    and stays false under every action and worker message other than
    [model_ready]; [model_ready] makes it true; [ready] only clears
    [isModelLoading]: it leaves [isModelReady] and every other part of the
    state of the hook as it is, and neither alerts nor posts. *)
Theorem readiness_false_until_model_ready (s : State) :
  isModelReady (after DownloadModel s) = false
  ∧ (∀ actions, Forall (fun a => a ≠ Receive ModelReady) actions →
       isModelReady (afterAll actions (after DownloadModel s)) = false)
  ∧ isModelReady (after (Receive ModelReady) s) = true
  ∧ isModelReady (after (Receive Ready) s) = isModelReady s
  ∧ isModelLoading (after (Receive Ready) s) = false
  ∧ transcript (after (Receive Ready) s) = transcript s
  ∧ isBusy (after (Receive Ready) s) = isBusy s
  ∧ isCheckingModel (after (Receive Ready) s) = isCheckingModel s
  ∧ progressItems (after (Receive Ready) s) = progressItems s
  ∧ model (after (Receive Ready) s) = model s
  ∧ subtask (after (Receive Ready) s) = subtask s
  ∧ dtype (after (Receive Ready) s) = dtype s
  ∧ gpu (after (Receive Ready) s) = gpu s
  ∧ language (after (Receive Ready) s) = language s
  ∧ snd (step (Receive Ready) s) = [].
Proof.
  split; [apply downloadModel_not_ready |].
  split.
  - intros actions Hall. apply readiness_stays_false_all; [exact Hall |].
    apply downloadModel_not_ready.
  - unfold after, step. cbn. rewrite !effects_unchanged_config by reflexivity.
    repeat split; reflexivity.
Qed.

Lemma readiness_false_until_model_ready_witness :
  isModelReady
    (afterAll [Receive Ready; SetLanguage "sv"; Receive (Error "offline");
               Receive ModelCheckComplete; Start None]
              (after DownloadModel readyState)) = false.
Proof.
  destruct (readiness_false_until_model_ready readyState) as (_ & Hstays & _).
  apply Hstays.
  repeat (constructor; [discriminate |]). constructor.
Defined.

(** ** The parameters of the [transcribe] request *)

Lemma string_length_app (a b : string) :
  String.length (a ++ b) = String.length a + String.length b.
Proof. induction a as [| c a IH]; simpl; [reflexivity | now f_equal]. Qed.

Lemma substring_all (s : string) : substring 0 (String.length s) s = s.
Proof. induction s as [| c s IH]; simpl; [reflexivity | now f_equal]. Qed.

Lemma substring_after_prefix (p s : string) :
  substring (String.length p) (String.length s) (p ++ s) = s.
Proof. induction p as [| c p IH]; simpl; [apply substring_all | exact IH]. Qed.

Lemma substring_split (s : string) (k : nat) :
  (k ≤ String.length s)%nat →
  s = substring 0 k s ++ substring k (String.length s - k) s.
Proof.
  revert k. induction s as [| c s IH]; intros k Hk.
  - destruct k; cbn in *; [reflexivity | lia].
  - destruct k as [| k]; simpl.
    + now rewrite substring_all.
    + change (String c s = String c (substring 0 k s
                                     ++ substring k (String.length s - k) s)).
      f_equal. apply IH. simpl in Hk. lia.
Qed.

(** [endsWith] is the suffix relation. *)
Lemma endsWith_spec (s suffix : string) :
  JS.endsWith s suffix = true ↔ ∃ p, s = p ++ suffix.
Proof.
  unfold JS.endsWith. split.
  - destruct (Nat.ltb_spec (String.length s) (String.length suffix)) as [| Hle];
      [discriminate |].
    intros Heq. apply String.eqb_eq in Heq.
    exists (substring 0 (String.length s - String.length suffix) s).
    pose proof (substring_split s (String.length s - String.length suffix)
                  ltac:(lia)) as Hsplit.
    replace (String.length s - (String.length s - String.length suffix))
      with (String.length suffix) in Hsplit by lia.
    rewrite Heq in Hsplit. exact Hsplit.
  - intros [p ->]. rewrite string_length_app.
    destruct (Nat.ltb_spec (String.length p + String.length suffix)
                           (String.length suffix)) as [Hlt |]; [lia |].
    replace (String.length p + String.length suffix - String.length suffix)
      with (String.length p) by lia.
    rewrite substring_after_prefix. apply String.eqb_refl.
Qed.

(** C7: the request that [start] posts carries [subtask = null] and
    [language = null] when the model identifier ends in [".en"], carries
    [language = null] when the language is ["auto"], and otherwise carries
    the current subtask and language. *)
Theorem transcribe_request_parameters (s : State) (audioData : AudioBuffer.t) :
  ∃ audio sentSubtask sentLanguage,
    snd (step (Start (Some audioData)) s)
    = [Posted (transcribe audio (model s) (dtype s) (gpu s)
                          sentSubtask sentLanguage)]
    ∧ ((∃ p, model s = p ++ ".en") →
       sentSubtask = None ∧ sentLanguage = None)
    ∧ (language s = "auto" → sentLanguage = None)
    ∧ (¬ (∃ p, model s = p ++ ".en") →
       sentSubtask = Some (subtask s)
       ∧ (language s ≠ "auto" → sentLanguage = Some (language s))).
Proof.
  destruct (mixdown_total audioData) as [audio Haudio].
  destruct (start_with_buffer s audioData audio Haudio) as (_ & Hout & _).
  exists audio. do 2 eexists. split; [exact Hout |].
  split; [| split].
  - intros Hen. apply endsWith_spec in Hen. rewrite Hen. split; reflexivity.
  - intros Hauto. rewrite Hauto. cbn.
    destruct (JS.endsWith (model s) ".en"); reflexivity.
  - intros Hen.
    destruct (JS.endsWith (model s) ".en") eqn:E.
    + exfalso. apply Hen. apply endsWith_spec. exact E.
    + cbn. split; [reflexivity |].
      intros Hlang. apply String.eqb_neq in Hlang. rewrite Hlang. reflexivity.
Qed.

Lemma transcribe_request_parameters_witness :
  (∃ audio, snd (step (Start (Some stereo)) englishOnly)
            = [Posted (transcribe audio "Xenova/whisper-tiny.en" "q8" false
                                  None None)])
  ∧ (∃ audio, snd (step (Start (Some stereo)) autoLanguage)
              = [Posted (transcribe audio "onnx-community/whisper-tiny" "q8"
                                    false (Some "transcribe") None)])
  ∧ (∃ audio, snd (step (Start (Some stereo)) s0)
              = [Posted (transcribe audio "onnx-community/whisper-tiny" "q8"
                                    false (Some "transcribe") (Some "en"))]).
Proof.
  assert (Hmulti : ¬ (∃ p, "onnx-community/whisper-tiny" = p ++ ".en")).
  { intros Hp. apply endsWith_spec in Hp. discriminate Hp. }
  split; [| split].
  - destruct (transcribe_request_parameters englishOnly stereo)
      as (audio & st & lang & Hout & Hen & _).
    destruct Hen as [-> ->].
    { exists "Xenova/whisper-tiny". reflexivity. }
    exists audio. exact Hout.
  - destruct (transcribe_request_parameters autoLanguage stereo)
      as (audio & st & lang & Hout & _ & Hauto & Hother).
    destruct (Hother Hmulti) as [-> _]. rewrite (Hauto eq_refl) in Hout.
    exists audio. exact Hout.
  - destruct (transcribe_request_parameters s0 stereo)
      as (audio & st & lang & Hout & _ & _ & Hother).
    destruct (Hother Hmulti) as [-> Hlang]. rewrite Hlang in Hout.
    + exists audio. exact Hout.
    + discriminate.
Defined.

(** ** The Progress Tracker *)

Section ProgressTracker.

Implicit Types (s : State) (items : list ProgressItem) (f g : string).

(** Rendering leaves [progressItems] alone. *)
Lemma progressItems_after (a : Action) s :
  progressItems (after a s) = progressItems (fst (run (handler a s) s)).
Proof.
  unfold after, step. destruct (run (handler a s) s) as [s1 out]. cbn [fst].
  apply (effects_frame s s1).
Qed.

Lemma progressItems_step (a : Action) s :
  progressItems (after a s)
  = match a with
    | Receive (Progress f p) =>
        List.map (fun item => if decide (file item = f)
                              then withProgress item p else item)
                 (progressItems s)
    | Receive (Initiate message) => (progressItems s ++ [message])%list
    | Receive (Done f) => filter (fun item => file item ≠ f) (progressItems s)
    | _ => progressItems s
    end.
Proof.
  rewrite progressItems_after.
  destruct a as [message | | | | | | | | audioData]; try reflexivity.
  - destruct message; reflexivity.
  - destruct audioData as [audioData |]; [| reflexivity].
    cbn. destruct (mixdown audioData); reflexivity.
Qed.

Lemma filter_progress_length f g (p : JS.number) items :
  Datatypes.length
    (filter (fun item => file item = g)
            (List.map (fun item => if decide (file item = f)
                                   then withProgress item p else item) items))
  = Datatypes.length (filter (fun item => file item = g) items).
Proof.
  induction items as [| item items IH]; [reflexivity |].
  cbn [List.map]. rewrite !filter_cons.
  assert (Hfile : file (if decide (file item = f)
                        then withProgress item p else item) = file item)
    by (destruct (decide _); reflexivity).
  rewrite Hfile. destruct (decide (file item = g)); cbn; rewrite IH; reflexivity.
Qed.

Lemma filter_done f g items :
  filter (fun item => file item = g)
         (filter (fun item => file item ≠ f) items)
  = if decide (f = g) then []
    else filter (fun item => file item = g) items.
Proof.
  induction items as [| item items IH].
  - destruct (decide _); reflexivity.
  - rewrite (filter_cons (fun item => file item ≠ f)).
    rewrite (filter_cons (fun item => file item = g) item items).
    destruct (decide (file item ≠ f)) as [Hne | Heq].
    + rewrite filter_cons, IH.
      destruct (decide (f = g)) as [<- |]; [| reflexivity].
      destruct (decide (file item = f)); [contradiction | reflexivity].
    + apply dec_stable in Heq. rewrite IH.
      destruct (decide (f = g)) as [|Hfg]; [reflexivity |].
      destruct (decide (file item = g)); [congruence | reflexivity].
Qed.

Lemma map_progress_unknown f (p : JS.number) items :
  filter (fun item => file item = f) items = [] →
  List.map (fun item => if decide (file item = f)
                        then withProgress item p else item) items = items.
Proof.
  induction items as [| item items IH]; [reflexivity |].
  rewrite filter_cons. cbn [List.map].
  destruct (decide (file item = f)); [discriminate |].
  intros H. rewrite IH by exact H. reflexivity.
Qed.

Lemma filter_done_unknown f items :
  filter (fun item => file item = f) items = [] →
  filter (fun item => file item ≠ f) items = items.
Proof.
  induction items as [| item items IH]; [reflexivity |].
  rewrite !filter_cons.
  destruct (decide (file item = f)); [discriminate |].
  intros H. destruct (decide (file item ≠ f)); [| contradiction].
  rewrite IH by exact H. reflexivity.
Qed.

(** How one action changes the number of items of a file. *)
Lemma itemsFor_step (a : Action) s g :
  Datatypes.length (itemsFor g (after a s))
  = match a with
    | Receive (Initiate message) =>
        Datatypes.length (itemsFor g s)
        + (if decide (file message = g) then 1 else 0)
    | Receive (Done f) =>
        if decide (f = g) then 0 else Datatypes.length (itemsFor g s)
    | _ => Datatypes.length (itemsFor g s)
    end.
Proof.
  unfold itemsFor. rewrite progressItems_step.
  destruct a as [message | | | | | | | |]; try reflexivity.
  destruct message; try reflexivity.
  - apply filter_progress_length.
  - rewrite filter_app, length_app, filter_cons, filter_nil.
    destruct (decide _); reflexivity.
  - rewrite filter_done. destruct (decide _); reflexivity.
Qed.

Lemma afterAll_snoc (actions : list Action) (a : Action) s :
  afterAll (actions ++ [a]) s = after a (afterAll actions s).
Proof. unfold afterAll. rewrite fold_left_app. reflexivity. Qed.

(** Uniqueness is kept as long as every [initiate] is for a fresh file. *)
Lemma unique_items_preserved (actions : list Action) s :
  (∀ g, Datatypes.length (itemsFor g s) ≤ 1) →
  initiatesFresh actions s →
  ∀ g, Datatypes.length (itemsFor g (afterAll actions s)) ≤ 1.
Proof.
  revert s. induction actions as [| a rest IH]; intros s Hs Hfresh; [exact Hs |].
  destruct Hfresh as [Ha Hrest]. cbn. apply IH; [| exact Hrest].
  intros g. rewrite itemsFor_step.
  destruct a as [message | | | | | | | |]; try apply Hs.
  destruct message; try apply Hs.
  - destruct (decide (file message = g)) as [<- |].
    + rewrite Ha. cbn. lia.
    + specialize (Hs g). lia.
  - destruct (decide _); [lia | apply Hs].
Qed.

(** Between its [initiate] and its [done] a file keeps its item count. *)
Lemma items_kept_between (between : list Action) s g :
  Forall (fun a => ¬ opensOrCloses g a) between →
  Datatypes.length (itemsFor g (afterAll between s))
  = Datatypes.length (itemsFor g s).
Proof.
  intros Hall. revert s.
  induction Hall as [| a rest Ha _ IH]; intros s; [reflexivity |].
  cbn. rewrite IH, itemsFor_step.
  destruct a as [message | | | | | | | |]; try reflexivity.
  destruct message; try reflexivity; cbn in Ha.
  - destruct (decide _); [contradiction | lia].
  - destruct (decide _); [contradiction | reflexivity].
Qed.

End ProgressTracker.

(** C3, the claim at a concrete stream: the worker announces the same
    file twice and the tracker holds two items with that key. *)
Lemma duplicate_initiate_duplicates_item :
  Datatypes.length
    (itemsFor "onnx/encoder_model.onnx"
       (afterAll [Receive (Initiate modelFile); Receive (Initiate modelFile)]
                 s0)) = 2.
Proof. vm_compute. reflexivity. Qed.

(** C3, as the code has it.  In a stream where [initiate] never comes for
    a file that still has an item, every state reached from the mounted
    hook has at most one item per file; from a state without an item for
    [F], after [initiate(F)] and any actions other than [initiate(F)] and
    [done(F)] there is exactly one item with key [F], and after a
    following [done(F)] there is none; a [progress] or [done] for a file
    without an item leaves the list as it is. *)
Theorem progress_tracker_items :
  (∀ (K : Constants) (locale : string) (actions : list Action) (g : string),
     initiatesFresh actions (mounted K locale) →
     Datatypes.length (itemsFor g (afterAll actions (mounted K locale))) ≤ 1)
  ∧ (∀ (s : State) (message : ProgressItem) (between : list Action),
       itemsFor (file message) s = [] →
       Forall (fun a => ¬ opensOrCloses (file message) a) between →
       Datatypes.length
         (itemsFor (file message)
            (afterAll (Receive (Initiate message) :: between) s)) = 1
       ∧ itemsFor (file message)
           (afterAll (Receive (Initiate message) :: between
                        ++ [Receive (Done (file message))]) s) = [])
  ∧ (∀ (s : State) (f : string) (p : JS.number),
       itemsFor f s = [] →
       progressItems (after (Receive (Progress f p)) s) = progressItems s
       ∧ progressItems (after (Receive (Done f)) s) = progressItems s).
Proof.
  split; [| split].
  - intros K locale actions g Hfresh.
    apply unique_items_preserved; [| exact Hfresh].
    intros g'. cbn. lia.
  - intros s message between Hnone Hbetween. split.
    + cbn [afterAll fold_left]. fold (afterAll between).
      rewrite items_kept_between by exact Hbetween.
      rewrite itemsFor_step, Hnone.
      destruct (decide _); [reflexivity | contradiction].
    + rewrite app_comm_cons, afterAll_snoc.
      apply length_zero_iff_nil. rewrite itemsFor_step.
      destruct (decide _); [reflexivity | contradiction].
  - intros s f p Hnone. rewrite !progressItems_step. split.
    + apply map_progress_unknown. exact Hnone.
    + apply filter_done_unknown. exact Hnone.
Qed.

Lemma progress_tracker_items_witness :
  Datatypes.length
    (itemsFor "config.json"
       (afterAll [Receive (Initiate modelFile); Receive (Initiate configFile);
                  Receive (Done "config.json"); Receive (Initiate configFile)]
                 (mounted K0 "en"))) ≤ 1
  ∧ (Datatypes.length
       (itemsFor (file modelFile)
          (afterAll (Receive (Initiate modelFile)
                       :: [Receive (Progress "onnx/encoder_model.onnx"
                                             (JS.Number 50 0));
                           Receive (Initiate configFile); Receive Ready])
                    s0)) = 1
     ∧ itemsFor (file modelFile)
         (afterAll (Receive (Initiate modelFile)
                      :: [Receive (Progress "onnx/encoder_model.onnx"
                                            (JS.Number 50 0));
                          Receive (Initiate configFile); Receive Ready]
                      ++ [Receive (Done (file modelFile))])
                   s0) = [])
  ∧ (progressItems (after (Receive (Progress "tokenizer.json" (JS.Number 5 1)))
                          s0) = progressItems s0
     ∧ progressItems (after (Receive (Done "tokenizer.json")) s0)
       = progressItems s0).
Proof.
  destruct progress_tracker_items as (Hunique & Hlife & Hunknown).
  split; [| split].
  - apply (Hunique K0 "en"). vm_compute. tauto.
  - apply (Hlife s0 modelFile); [reflexivity |].
    repeat (constructor; [cbn; intros H; try discriminate H; exact H |]).
    constructor.
  - apply (Hunknown s0). reflexivity.
Defined.

(** ** Audio mixdown *)

Section Mixdown.

Variables left right : list float.

(** The stereo loop stores sample [i] at every index below its bound and
    leaves the rest of the array. *)
Lemma mixLoop_spec (n : nat) (audio : list float) :
  n ≤ Datatypes.length audio →
  Datatypes.length (mixLoop left right n audio) = Datatypes.length audio
  ∧ ∀ i, mixLoop left right n audio !! i
         = if decide (i < n) then Some (mixedSample left right i)
           else audio !! i.
Proof.
  unfold mixLoop. induction n as [| n IH]; intros Hn.
  - split; [reflexivity |]. intros i.
    destruct (decide (i < 0)); [lia | reflexivity].
  - rewrite seq_S, fold_left_app. cbn [fold_left Nat.add].
    destruct IH as [Hlen Hget]; [lia |].
    split; [rewrite length_insert; exact Hlen |].
    intros i. destruct (decide (i = n)) as [-> | Hne].
    + rewrite list_lookup_insert_eq by lia.
      destruct (decide (n < S n)); [reflexivity | lia].
    + rewrite list_lookup_insert_ne by congruence. rewrite Hget.
      destruct (decide (i < n)), (decide (i < S n)); try lia; reflexivity.
Qed.

End Mixdown.

(** C4, the claim at a concrete buffer: for [left = [1; 0.5]] and
    [right = [1; -0.5]] the first sample of the mixdown is
    [0x1.6a09e6p+0] (1.41421353816986083984375), the value a
    [Float32Array] holds after the store, and not the number
    [sqrt(2) * (1 + 1) / 2 = 0x1.6a09e667f3bcdp+0] (1.4142135623730951)
    that the expression on the right of the assignment has. *)
Lemma stereo_sample_is_rounded_on_store :
  ∃ audio : list float,
    mixdown stereo = Some audio
    ∧ audio !! 0 = Some 0x1.6a09e6p+0%float
    ∧ ((PrimFloat.sqrt 2 * (1 + 1)) / 2)%float = 0x1.6a09e667f3bcdp+0%float
    ∧ audio !! 0 ≠ Some ((PrimFloat.sqrt 2 * (1 + 1)) / 2)%float.
Proof.
  exists [0x1.6a09e6p+0%float; 0%float].
  split; [vm_compute; reflexivity |]. split; [reflexivity |].
  split; [vm_compute; reflexivity |].
  intros H.
  apply (f_equal (fun sample =>
                    match sample with
                    | Some x => PrimFloat.eqb x 0x1.6a09e6p+0%float
                    | None => false
                    end)) in H.
  vm_compute in H. discriminate H.
Qed.

(** C4, as the code has it: for a buffer whose channels all have [length]
    frames, the mixdown has [length] samples; it is channel 0 itself when
    there is one channel or more than two; with two channels sample [i] is
    [sqrt(2) * (left[i] + right[i]) / 2], evaluated in double precision and
    then rounded to the nearest single-precision value (24 bits of
    precision, exponents up to 128, ties to even), which is what the store
    into the [Float32Array] of the result keeps. *)
Theorem mixdown_channels (audioData : AudioBuffer.t) :
  AudioBuffer.wellFormed audioData →
  ∃ audio : list float,
    mixdown audioData = Some audio
    ∧ Datatypes.length audio = AudioBuffer.length audioData
    ∧ (AudioBuffer.numberOfChannels audioData = 1 →
       audio = AudioBuffer.channel0 audioData)
    ∧ (2 < AudioBuffer.numberOfChannels audioData →
       audio = AudioBuffer.channel0 audioData)
    ∧ (AudioBuffer.numberOfChannels audioData = 2 →
       ∃ left right,
         AudioBuffer.channels audioData = [left; right]
         ∧ ∀ i, i < AudioBuffer.length audioData →
             ∃ l r, left !! i = Some l ∧ right !! i = Some r
                    ∧ audio !! i
                      = Some (let d := ((PrimFloat.sqrt 2 * (l + r)) / 2)%float in
                              match Prim2SF d with
                              | S754_finite s m e =>
                                  SF2Prim (binary_round 24 128 s m e)
                              | _ => d
                              end)).
Proof.
  destruct audioData as [n c0 others]. unfold AudioBuffer.wellFormed, mixdown,
    AudioBuffer.numberOfChannels, AudioBuffer.getChannelData,
    AudioBuffer.channels.
  cbn [AudioBuffer.channel0 AudioBuffer.otherChannels AudioBuffer.length].
  intros Hwf. apply Forall_cons in Hwf as [Hc0 Hothers].
  destruct others as [| c1 rest].
  - exists c0. cbn. split; [reflexivity |]. split; [exact Hc0 |].
    split; [reflexivity |]. split; [reflexivity |]. discriminate.
  - destruct rest as [| c2 rest].
    + apply Forall_cons in Hothers as [Hc1 _]. cbn.
      destruct (mixLoop_spec c0 c1 n (replicate (Datatypes.length c0) 0%float))
        as [Hlen Hget]; [rewrite length_replicate; lia |].
      eexists. split; [reflexivity |].
      split; [rewrite Hlen, length_replicate; exact Hc0 |].
      split; [discriminate |]. split; [lia |]. intros _.
      exists c0, c1. split; [reflexivity |]. intros i Hi.
      destruct (lookup_lt_is_Some_2 c0 i) as [l Hl]; [lia |].
      destruct (lookup_lt_is_Some_2 c1 i) as [r Hr]; [lia |].
      exists l, r. split; [exact Hl |]. split; [exact Hr |].
      rewrite Hget. destruct (decide (i < n)); [| lia].
      unfold mixedSample, sampleAt.
      rewrite (nth_lookup_Some _ _ nan _ Hl), (nth_lookup_Some _ _ nan _ Hr).
      reflexivity.
    + exists c0. cbn. split; [reflexivity |]. split; [exact Hc0 |].
      split; [reflexivity |]. split; [reflexivity |]. discriminate.
Qed.

Lemma mixdown_channels_witness :
  ∃ audio : list float,
    mixdown stereo = Some audio
    ∧ Datatypes.length audio = 2
    ∧ audio !! 0 = Some 0x1.6a09e6p+0%float
    ∧ audio !! 1 = Some 0%float.
Proof.
  destruct (mixdown_channels stereo)
    as (audio & Hmix & Hlen & _ & _ & Hstereo).
  { repeat (constructor; [reflexivity |]). constructor. }
  destruct (Hstereo eq_refl) as (left & right & Hchannels & Hsample).
  injection Hchannels as <- <-.
  destruct (Hsample 0) as (l & r & Hl & Hr & Hout); [cbn; lia |].
  injection Hl as <-. injection Hr as <-.
  destruct (Hsample 1) as (l & r & Hl & Hr & Hout'); [cbn; lia |].
  injection Hl as <-. injection Hr as <-.
  exists audio. split; [exact Hmix |]. split; [exact Hlen |].
  split; [rewrite Hout | rewrite Hout']; vm_compute; reflexivity.
Defined.

(** The three sample buffers, evaluated. *)
Example mixdown_samples :
  mixdown mono = Some [0.5%float; 0.25%float]
  ∧ mixdown stereo = Some [0x1.6a09e6p+0%float; 0%float]
  ∧ mixdown surround = Some [0.5%float].
Proof. vm_compute. repeat split; reflexivity. Qed.

(** ** The edit overlay *)

Section Overlay.

Import Transcript.

Implicit Types (t : Transcript.State) (d : TranscriberData.t).

Lemma forEachChunk_lookup (chunks : list Chunk.t) (k : nat)
  (acc : gmap nat string) (i : nat) :
  forEachChunk chunks k acc !! i
  = if decide (k ≤ i < k + Datatypes.length chunks)
    then Chunk.text <$> chunks !! (i - k)
    else acc !! i.
Proof.
  revert k acc. induction chunks as [| chunk rest IH]; intros k acc.
  - cbn. destruct (decide _); [lia | reflexivity].
  - cbn [forEachChunk Datatypes.length]. rewrite IH.
    destruct (decide (S k ≤ i < S k + Datatypes.length rest)) as [Hin | Hout].
    + destruct (decide _); [| lia].
      replace (i - k) with (S (i - S k)) by lia. reflexivity.
    + destruct (decide (i = k)) as [-> | Hne].
      * rewrite lookup_insert_eq. destruct (decide _); [| lia].
        rewrite Nat.sub_diag. reflexivity.
      * rewrite lookup_insert_ne by congruence.
        destruct (decide _); [lia | reflexivity].
Qed.

(** The rebuilt overlay holds the text of every chunk and nothing else. *)
Lemma initialEditedChunks_lookup (chunks : list Chunk.t) (i : nat) :
  initialEditedChunks chunks !! i = Chunk.text <$> chunks !! i.
Proof.
  unfold initialEditedChunks. rewrite forEachChunk_lookup, Nat.sub_0_r.
  destruct (decide _) as [| Hout]; [reflexivity |].
  rewrite lookup_empty, lookup_ge_None_2 by lia. reflexivity.
Qed.

Lemma chunkAt_currentChunks t (i : nat) : chunkAt t i = currentChunks t !! i.
Proof.
  unfold chunkAt, currentChunks. destruct (transcribedData t); reflexivity.
Qed.

End Overlay.

(** C8, the claim at a concrete state: after the output with the chunks
    "Hello" and "world" was shown and the input then cleared, the overlay
    still has an entry for index 0, and there is no chunk list left. *)
Lemma overlay_stale_after_clearing :
  Transcript.overlayValid shown ∧ ¬ Transcript.overlayValid cleared.
Proof.
  split.
  - intros i [x Hx]. change (i < 2).
    change (Transcript.initialEditedChunks (data_chunks helloWorld) !! i
            = Some x) in Hx.
    rewrite initialEditedChunks_lookup in Hx.
    apply fmap_Some in Hx as (chunk & Hchunk & _).
    apply lookup_lt_Some in Hchunk. exact Hchunk.
  - intros Hvalid. specialize (Hvalid 0).
    assert (H0 : 0 < 0); [| lia].
    apply Hvalid. exists "Hello". vm_compute. reflexivity.
Qed.

(** C8, as the code has it.  Receiving an output rebuilds the overlay: it
    holds exactly the indices of the new chunk list, each with the
    original text of its chunk, so that every chunk reads as its original
    text, none counts as edited, and the overlay is valid.  Editing the
    chunk at an index of the chunk list keeps the overlay valid.
    Receiving the cleared output keeps the overlay as it is. *)
Theorem overlay_operations (t : Transcript.State) :
  (∀ d : TranscriberData.t,
     let t' := Transcript.receive (Some d) t in
     (∀ i, Transcript.editedChunks t' !! i
           = Chunk.text <$> TranscriberData.chunks d !! i)
     ∧ (∀ i chunk, TranscriberData.chunks d !! i = Some chunk →
                   Transcript.getChunkText t' i = Chunk.text chunk)
     ∧ (∀ i, Transcript.isChunkEdited t' i = false)
     ∧ Transcript.overlayValid t')
  ∧ (∀ (i : nat) (newText : string),
       Transcript.overlayValid t →
       i < Datatypes.length (Transcript.currentChunks t) →
       Transcript.overlayValid (Transcript.handleTextChange i newText t))
  ∧ Transcript.editedChunks (Transcript.receive None t)
    = Transcript.editedChunks t.
Proof.
  split; [| split].
  - intros d t'.
    assert (Hlookup : ∀ i, Transcript.editedChunks t' !! i
                           = Chunk.text <$> TranscriberData.chunks d !! i)
      by (intros i; apply initialEditedChunks_lookup).
    split; [exact Hlookup |]. split; [| split].
    + intros i chunk Hchunk. unfold Transcript.getChunkText.
      rewrite Hlookup, Hchunk. reflexivity.
    + intros i. unfold Transcript.isChunkEdited. rewrite Hlookup.
      change (Transcript.chunkAt t' i) with (TranscriberData.chunks d !! i).
      destruct (TranscriberData.chunks d !! i); [| reflexivity].
      cbn -[String.eqb]. rewrite String.eqb_refl. reflexivity.
    + intros i [x Hx]. rewrite Hlookup in Hx.
      apply fmap_Some in Hx as (chunk & Hchunk & _).
      apply lookup_lt_Some in Hchunk. exact Hchunk.
  - intros i newText Hvalid Hi j [x Hx]. cbn in Hx.
    destruct (decide (j = i)) as [-> | Hne]; [exact Hi |].
    rewrite lookup_insert_ne in Hx by congruence.
    apply Hvalid. exists x. exact Hx.
  - reflexivity.
Qed.

Lemma overlay_operations_witness :
  Transcript.overlayValid (Transcript.handleTextChange 1 "World!" shown).
Proof.
  destruct (overlay_operations Transcript.initial) as (Hreceive & _ & _).
  destruct (overlay_operations shown) as (_ & Hedit & _).
  apply Hedit.
  - apply (Hreceive (transcriptOf false helloWorld)).
  - vm_compute. lia.
Defined.

(** ** Reading a chunk *)

(** C10: for every index, [getChunkText] gives the overlay entry if there
    is one, else the text of the chunk at that index if there is one, else
    the empty string; there is no chunk at an index past the end of the
    chunk list, and with neither an overlay entry nor a chunk
    [isChunkEdited] is false.  Both are total. *)
Theorem chunk_text_any_index (t : Transcript.State) (i : nat) :
  Transcript.getChunkText t i
  = match Transcript.editedChunks t !! i, Transcript.currentChunks t !! i with
    | Some editedText, _ => editedText
    | None, Some chunk => Chunk.text chunk
    | None, None => ""
    end
  ∧ (Datatypes.length (Transcript.currentChunks t) ≤ i →
     Transcript.currentChunks t !! i = None)
  ∧ (Transcript.editedChunks t !! i = None →
     Transcript.currentChunks t !! i = None →
     Transcript.isChunkEdited t i = false).
Proof.
  split; [| split].
  - unfold Transcript.getChunkText. rewrite chunkAt_currentChunks.
    destruct (Transcript.editedChunks t !! i); [reflexivity |].
    destruct (Transcript.currentChunks t !! i); reflexivity.
  - apply lookup_ge_None_2.
  - intros Hoverlay Hchunk. unfold Transcript.isChunkEdited.
    rewrite chunkAt_currentChunks, Hoverlay, Hchunk. reflexivity.
Qed.

Lemma chunk_text_any_index_witness :
  Transcript.getChunkText edited 7 = ""
  ∧ Transcript.isChunkEdited edited 7 = false.
Proof.
  destruct (chunk_text_any_index edited 7) as (Htext & Hpast & Hedited).
  split.
  - rewrite Htext. vm_compute. reflexivity.
  - apply Hedited; [vm_compute; reflexivity |].
    apply Hpast. vm_compute. lia.
Defined.

(** ** JSON export *)

(** C9, the claim on its own scenario: the export of the two chunks, the
    second edited to "World!", has no timestamp written [[1.5 1.5]]; the
    open end of the second chunk is exported as [null], after a comma. *)
Lemma json_export_has_no_space_separated_timestamp :
  JS.includes (Transcript.exportJSON edited) "[1.5 1.5]" = false
  ∧ JS.includes (Transcript.exportJSON edited) "[1.5, null]" = true.
Proof. vm_compute. split; reflexivity. Qed.

(** C9, as the code has it: the export of the scenario is the array
    printed with an indentation of two spaces, each object on several
    lines with its keys in the order of the chunk ([text], [timestamp]),
    and each timestamp on one line with its comma and its [null] kept. *)
Theorem json_export_scenario :
  Transcript.exportJSON edited
  = lines
      ["[";
       "  {";
       "    " ++ JS.quoted "text" ++ ": " ++ JS.quoted "Hello" ++ ",";
       "    " ++ JS.quoted "timestamp" ++ ": [0, 1.5]";
       "  },";
       "  {";
       "    " ++ JS.quoted "text" ++ ": " ++ JS.quoted "World!" ++ ",";
       "    " ++ JS.quoted "timestamp" ++ ": [1.5, null]";
       "  }";
       "]"].
Proof. vm_compute. reflexivity. Qed.

(** * Further properties of the hook *)

Section Hook.

Implicit Types (s : State) (a : Action).

(** A handler and the render after it, field by field. *)
Lemma after_fields a s :
  let s1 := fst (run (handler a s) s) in
  transcript (after a s) = transcript s1
  ∧ isBusy (after a s) = isBusy s1
  ∧ isModelLoading (after a s) = isModelLoading s1
  ∧ isCheckingModel (after a s) = isCheckingModel s1
  ∧ configuration (after a s) = configuration s1.
Proof.
  unfold after, step, configuration.
  destruct (run (handler a s) s) as [s1 out]. cbn [fst].
  destruct (effects_frame s s1)
    as (Ht & Hb & Hl & Hc & _ & Hm & Hs & Hd & Hg & Hlang).
  rewrite Ht, Hb, Hl, Hc, Hm, Hs, Hd, Hg, Hlang. repeat split; reflexivity.
Qed.

Lemma step_output a s : snd (step a s) = snd (run (handler a s) s).
Proof. unfold step. destruct (run (handler a s) s). reflexivity. Qed.

Lemma message_output (message : WorkerMessage) s :
  snd (step (Receive message) s)
  = match message with
    | Error m => [Alerted (errorText m)]
    | _ => []
    end.
Proof. rewrite step_output. destruct message; reflexivity. Qed.

(** X1: a worker message never changes the configuration and never makes
    the hook post to the worker; the only message that alerts is
    [error]. *)
Theorem messages_keep_configuration (message : WorkerMessage) s :
  configuration (after (Receive message) s) = configuration s
  ∧ (∀ request, Posted request ∉ snd (step (Receive message) s))
  ∧ (∀ text, Alerted text ∈ snd (step (Receive message) s) →
             ∃ m, message = Error m).
Proof.
  destruct (after_fields (Receive message) s) as (_ & _ & _ & _ & Hconf).
  rewrite Hconf, message_output. clear Hconf.
  split; [destruct message; reflexivity |].
  split; intros x Hin; destruct message;
    try (apply not_elem_of_nil in Hin; contradiction).
  - apply list_elem_of_singleton in Hin. discriminate Hin.
  - eexists. reflexivity.
Qed.

Lemma messages_keep_configuration_witness :
  ∃ m, Error "out of memory" = Error m.
Proof.
  destruct (messages_keep_configuration (Error "out of memory") s0)
    as (_ & _ & Halert).
  apply (Halert (errorText "out of memory")).
  rewrite message_output. apply list_elem_of_singleton. reflexivity.
Defined.

(** X2: [downloadModel] and [start] with a buffer post exactly one
    request; no other action posts anything. *)
Theorem only_download_and_start_post a s :
  if posts a then ∃ request, snd (step a s) = [Posted request]
  else ∀ request, Posted request ∉ snd (step a s).
Proof.
  destruct a as [message | | | | | | | | [audioData |]]; cbn [posts].
  - intros r Hin. rewrite message_output in Hin.
    destruct message; try (apply not_elem_of_nil in Hin; contradiction).
    apply list_elem_of_singleton in Hin. discriminate Hin.
  - intros r Hin. rewrite step_output in Hin. cbn in Hin.
    apply not_elem_of_nil in Hin. exact Hin.
  - intros r Hin. rewrite step_output in Hin. cbn in Hin.
    apply not_elem_of_nil in Hin. exact Hin.
  - intros r Hin. rewrite step_output in Hin. cbn in Hin.
    apply not_elem_of_nil in Hin. exact Hin.
  - intros r Hin. rewrite step_output in Hin. cbn in Hin.
    apply not_elem_of_nil in Hin. exact Hin.
  - intros r Hin. rewrite step_output in Hin. cbn in Hin.
    apply not_elem_of_nil in Hin. exact Hin.
  - intros r Hin. rewrite step_output in Hin. cbn in Hin.
    apply not_elem_of_nil in Hin. exact Hin.
  - eexists. rewrite step_output. reflexivity.
  - destruct (mixdown_total audioData) as [audio Haudio].
    destruct (start_with_buffer s audioData audio Haudio) as (_ & Hout & _).
    eexists. exact Hout.
  - intros r Hin. rewrite step_output in Hin. cbn in Hin.
    apply not_elem_of_nil in Hin. exact Hin.
Qed.

(** X3: setting [model], [dtype] or [gpu] to the value it has changes
    nothing: the readiness of the model is kept. *)
Theorem same_value_keeps_state s :
  after (SetModel (model s)) s = s
  ∧ after (SetDtype (dtype s)) s = s
  ∧ after (SetGPU (gpu s)) s = s.
Proof.
  destruct s. unfold after, step. cbn.
  rewrite !effects_unchanged_config by reflexivity.
  repeat split; reflexivity.
Qed.

Lemma configuration_after_setter (a : Action) s :
  configuration (after a s)
  = match a with
    | SetModel v => (v, dtype s, gpu s, subtask s, language s)
    | SetDtype v => (model s, v, gpu s, subtask s, language s)
    | SetGPU v => (model s, dtype s, v, subtask s, language s)
    | SetSubtask v => (model s, dtype s, gpu s, v, language s)
    | SetLanguage v => (model s, dtype s, gpu s, subtask s, v)
    | _ => configuration s
    end.
Proof.
  destruct (after_fields a s) as (_ & _ & _ & _ & Hconf). rewrite Hconf.
  destruct a as [message | | | | | | | | [audioData |]]; try reflexivity.
  - destruct message; reflexivity.
  - cbn. destruct (mixdown audioData); reflexivity.
Qed.

Lemma configuration_after_setters s (m d st l : string) (g : bool) :
  configuration
    (afterAll [SetModel m; SetDtype d; SetGPU g; SetSubtask st; SetLanguage l] s)
  = (m, d, g, st, l).
Proof.
  cbn [afterAll fold_left].
  pose proof (configuration_after_setter (SetModel m) s) as H1.
  set (s1 := after (SetModel m) s) in *.
  pose proof (configuration_after_setter (SetDtype d) s1) as H2.
  set (s2 := after (SetDtype d) s1) in *.
  pose proof (configuration_after_setter (SetGPU g) s2) as H3.
  set (s3 := after (SetGPU g) s2) in *.
  pose proof (configuration_after_setter (SetSubtask st) s3) as H4.
  set (s4 := after (SetSubtask st) s3) in *.
  rewrite (configuration_after_setter (SetLanguage l) s4).
  clearbody s1 s2 s3 s4. unfold configuration in *.
  injection H1 as ? ? ? ? ?. injection H2 as ? ? ? ? ?.
  injection H3 as ? ? ? ? ?. injection H4 as ? ? ? ? ?.
  congruence.
Qed.

(** X4: the requests carry the configuration of the last render: after the
    five setters, [downloadModel] posts the new model, dtype and gpu, and
    [start] posts them with the new subtask and language (or [null] as
    the model and the language demand). *)
Theorem requests_carry_latest_configuration s (m d st l : string) (g : bool)
  (audioData : AudioBuffer.t) :
  let s' :=
    afterAll [SetModel m; SetDtype d; SetGPU g; SetSubtask st; SetLanguage l]
             s in
  snd (step DownloadModel s') = [Posted (download_model m d g)]
  ∧ ∃ audio,
      mixdown audioData = Some audio
      ∧ snd (step (Start (Some audioData)) s')
        = [Posted (transcribe audio m d g
                     (if JS.endsWith m ".en" then None else Some st)
                     (if JS.endsWith m ".en" || String.eqb l "auto"
                      then None else Some l))].
Proof.
  intros s'.
  pose proof (configuration_after_setters s m d st l g) as Hconf.
  change (afterAll _ s) with s' in Hconf. clearbody s'.
  unfold configuration in Hconf. injection Hconf as Hm Hd Hg Hst Hl.
  split.
  - rewrite step_output. cbn. rewrite Hm, Hd, Hg. reflexivity.
  - destruct (mixdown_total audioData) as [audio Haudio].
    exists audio. split; [exact Haudio |].
    destruct (start_with_buffer s' audioData audio Haudio) as (_ & Hout & _).
    rewrite Hout. unfold transcribeRequest. rewrite Hm, Hd, Hg, Hst, Hl.
    destruct (JS.endsWith m ".en"), (String.eqb l "auto"); reflexivity.
Qed.

End Hook.

(** ** The flags over a stream of actions *)

Section Flags.

Implicit Types (s : State) (a : Action).

Lemma loading_kept a s :
  ¬ endsLoading a → isModelLoading s = true →
  isModelLoading (after a s) = true.
Proof.
  intros Ha Hs. destruct (after_fields a s) as (_ & _ & Hl & _). rewrite Hl.
  destruct a as [message | | | | | | | | [audioData |]]; cbn; try exact Hs.
  - destruct message; cbn in *; try exact Hs; try reflexivity; tauto.
  - destruct (mixdown audioData); exact Hs.
Qed.

(** X5: once a file was announced, [isModelLoading] stays true under every
    action but the messages [ready], [model_ready] and [error], each of
    which clears it; [done] does not clear it, even for the last file. *)
Theorem loading_until_ready_or_error (item : ProgressItem) s :
  (∀ actions, Forall (fun a => ¬ endsLoading a) actions →
     isModelLoading (afterAll actions (after (Receive (Initiate item)) s))
     = true)
  ∧ isModelLoading (after (Receive Ready) s) = false
  ∧ isModelLoading (after (Receive ModelReady) s) = false
  ∧ (∀ m, isModelLoading (after (Receive (Error m)) s) = false).
Proof.
  split.
  - intros actions Hall.
    assert (Hstart : isModelLoading (after (Receive (Initiate item)) s) = true).
    { destruct (after_fields (Receive (Initiate item)) s) as (_ & _ & Hl & _).
      rewrite Hl. reflexivity. }
    revert Hstart. generalize (after (Receive (Initiate item)) s).
    induction Hall as [| a rest Ha _ IH]; intros s1 Hs1; [exact Hs1 |].
    cbn. apply IH. apply loading_kept; assumption.
  - repeat split; try intros m;
      match goal with
      | |- isModelLoading (after ?a s) = _ =>
          destruct (after_fields a s) as (_ & _ & Hl & _); rewrite Hl
      end; reflexivity.
Qed.

Lemma loading_until_ready_or_error_witness :
  isModelLoading
    (afterAll [Receive (Progress "config.json" (JS.Number 100 0));
               Receive (Done "config.json"); Receive ModelCheckComplete;
               SetLanguage "sv"]
              (after (Receive (Initiate configFile)) s0)) = true.
Proof.
  destruct (loading_until_ready_or_error configFile s0) as (Hkept & _).
  apply Hkept. repeat (constructor; [exact id |]). constructor.
Defined.

Lemma checking_kept a s :
  isCheckingModel s = false → isCheckingModel (after a s) = false.
Proof.
  intros Hs. destruct (after_fields a s) as (_ & _ & _ & Hc & _). rewrite Hc.
  destruct a as [message | | | | | | | | [audioData |]]; cbn; try exact Hs.
  - destruct message; cbn; try exact Hs; reflexivity.
  - destruct (mixdown audioData); exact Hs.
Qed.

(** X6: the hook is mounted checking for a model; [model_ready],
    [model_check_complete] and [error] each end the check, and nothing
    starts it again: once [isCheckingModel] is false it stays false. *)
Theorem checking_never_restarts s :
  (∀ K locale, isCheckingModel (mounted K locale) = true)
  ∧ isCheckingModel (after (Receive ModelReady) s) = false
  ∧ isCheckingModel (after (Receive ModelCheckComplete) s) = false
  ∧ (∀ m, isCheckingModel (after (Receive (Error m)) s) = false)
  ∧ (isCheckingModel s = false →
     ∀ actions, isCheckingModel (afterAll actions s) = false).
Proof.
  assert (Hends : ∀ a, (a = Receive ModelReady ∨ a = Receive ModelCheckComplete
                        ∨ ∃ m, a = Receive (Error m)) →
                       isCheckingModel (after a s) = false).
  { intros a Ha. destruct (after_fields a s) as (_ & _ & _ & Hc & _).
    rewrite Hc. destruct Ha as [-> | [-> | [m ->]]]; reflexivity. }
  split; [reflexivity |].
  split; [apply Hends; auto |]. split; [apply Hends; auto |].
  split; [intros m; apply Hends; eauto |].
  clear Hends. intros Hs actions. revert s Hs.
  induction actions as [| a rest IH]; intros s Hs; [exact Hs |].
  cbn. apply IH. apply checking_kept. exact Hs.
Qed.

Lemma checking_never_restarts_witness :
  isCheckingModel
    (afterAll [SetModel "onnx-community/whisper-base"; DownloadModel;
               Receive (Initiate modelFile); Start (Some stereo)]
              (after (Receive ModelCheckComplete) s0)) = false.
Proof.
  destruct (checking_never_restarts (after (Receive ModelCheckComplete) s0))
    as (_ & _ & _ & _ & Hstays).
  apply Hstays. reflexivity.
Defined.

(** X23: an [error] message neither takes the readiness of the model away
    nor touches the tracker: the items of the files that were loading
    stay as they are. *)
Theorem error_keeps_readiness_and_items (m : string) s :
  isModelReady (after (Receive (Error m)) s) = isModelReady s
  ∧ progressItems (after (Receive (Error m)) s) = progressItems s
  ∧ configuration (after (Receive (Error m)) s) = configuration s.
Proof.
  split; [| split].
  - unfold after, step. cbn. rewrite effects_unchanged_config by reflexivity.
    reflexivity.
  - rewrite progressItems_step. reflexivity.
  - destruct (after_fields (Receive (Error m)) s) as (_ & _ & _ & _ & Hconf).
    rewrite Hconf. reflexivity.
Qed.

End Flags.

(** ** More on the Progress Tracker *)

Section Tracker.

Implicit Types (s : State) (f : string) (items : list ProgressItem).

Lemma afterAll_cons (a : Action) (actions : list Action) s :
  afterAll (a :: actions) s = afterAll actions (after a s).
Proof. reflexivity. Qed.

Lemma map_progress_twice f (p q : JS.number) items :
  List.map (fun item => if decide (file item = f)
                        then withProgress item q else item)
    (List.map (fun item => if decide (file item = f)
                           then withProgress item p else item) items)
  = List.map (fun item => if decide (file item = f)
                          then withProgress item q else item) items.
Proof.
  rewrite List.map_map. apply List.map_ext. intros item.
  destruct (decide (file item = f)) as [Hf | Hf]; cbn.
  - destruct (decide (file item = f)); [reflexivity | contradiction].
  - destruct (decide (file item = f)); [contradiction | reflexivity].
Qed.

(** X7: a [progress] message keeps the files of the tracker and their
    order, leaves every item of another file as it is, gives every item
    of its file the new progress, and overrides an earlier [progress]
    for the same file. *)
Theorem progress_overwrites_progress f (p q : JS.number) s :
  let s1 := after (Receive (Progress f p)) s in
  List.map file (progressItems s1) = List.map file (progressItems s)
  ∧ (∀ item, item ∈ progressItems s1 → file item = f → progress item = p)
  ∧ (∀ item, file item ≠ f →
       (item ∈ progressItems s1 ↔ item ∈ progressItems s))
  ∧ progressItems (after (Receive (Progress f q)) s1)
    = progressItems (after (Receive (Progress f q)) s).
Proof.
  intros s1. unfold s1. rewrite !progressItems_step.
  split; [| split; [| split]].
  - rewrite List.map_map. apply List.map_ext. intros item.
    destruct (decide _); reflexivity.
  - intros item Hin Hf. apply list_elem_of_In, List.in_map_iff in Hin.
    destruct Hin as (item0 & <- & _).
    destruct (decide (file item0 = f)) as [| Hne]; [reflexivity |].
    contradiction.
  - intros item Hf. rewrite !list_elem_of_In, List.in_map_iff. split.
    + intros (item0 & Heq & Hin).
      destruct (decide (file item0 = f)) as [Hf0 |]; [| subst; exact Hin].
      subst item. cbn in Hf. contradiction.
    + intros Hin. exists item.
      destruct (decide (file item = f)); [contradiction | auto].
  - apply map_progress_twice.
Qed.

Lemma progress_overwrites_progress_witness :
  progress (withProgress configFile (JS.Number 40 0)) = JS.Number 40 0.
Proof.
  destruct (progress_overwrites_progress "config.json" (JS.Number 40 0)
              (JS.Number 0 0) (after (Receive (Initiate configFile)) s0))
    as (_ & Hset & _).
  apply Hset; [| reflexivity].
  apply list_elem_of_In. left. reflexivity.
Defined.

(** X8: [done(f)] takes every item of the file [f] out of the tracker and
    keeps the others in their order; right after [initiate] for a file
    that had no item it gives the list back as it was. *)
Theorem done_undoes_initiate (message : ProgressItem) s :
  progressItems
    (afterAll [Receive (Initiate message); Receive (Done (file message))] s)
  = filter (fun item => file item ≠ file message) (progressItems s)
  ∧ (itemsFor (file message) s = [] →
     progressItems
       (afterAll [Receive (Initiate message); Receive (Done (file message))] s)
     = progressItems s).
Proof.
  assert (H : progressItems
                (afterAll [Receive (Initiate message);
                           Receive (Done (file message))] s)
              = filter (fun item => file item ≠ file message)
                       (progressItems s)).
  { rewrite !afterAll_cons. change (afterAll [] ?x) with x.
    rewrite !progressItems_step.
    rewrite filter_app, filter_cons, filter_nil.
    destruct (decide (file message ≠ file message)); [contradiction |].
    apply app_nil_r. }
  split; [exact H |].
  intros Hnone. rewrite H. apply filter_done_unknown. exact Hnone.
Qed.

Lemma done_undoes_initiate_witness :
  progressItems
    (afterAll [Receive (Initiate configFile);
               Receive (Done (file configFile))]
              (after (Receive (Initiate modelFile)) s0))
  = progressItems (after (Receive (Initiate modelFile)) s0).
Proof.
  apply (done_undoes_initiate configFile
           (after (Receive (Initiate modelFile)) s0)).
  reflexivity.
Defined.

Lemma items_after_initiates items s :
  progressItems
    (afterAll (List.map (fun item => Receive (Initiate item)) items) s)
  = (progressItems s ++ items)%list.
Proof.
  revert s. induction items as [| item items IH]; intros s; cbn [List.map].
  - symmetry. apply app_nil_r.
  - rewrite afterAll_cons, IH, progressItems_step, <- app_assoc. reflexivity.
Qed.

Lemma items_after_dones (fs : list string) s :
  progressItems (afterAll (List.map (fun f => Receive (Done f)) fs) s)
  = filter (fun item => file item ∉ fs) (progressItems s).
Proof.
  revert s. induction fs as [| f fs IH]; intros s; cbn [List.map].
  - change (afterAll [] s) with s.
    induction (progressItems s) as [| item l IHl]; [reflexivity |].
    rewrite filter_cons_True by apply not_elem_of_nil. f_equal. exact IHl.
  - rewrite afterAll_cons, IH, progressItems_step, list_filter_filter.
    apply list_filter_iff. intros item. rewrite not_elem_of_cons. tauto.
Qed.

(** X9: from an empty tracker, announcing the files of [items] and then
    receiving [done] for the files of [fs] leaves the items whose file is
    not in [fs], in the order they were announced; the tracker is empty
    again once every announced file is done. *)
Theorem tracker_drains (items : list ProgressItem) (fs : list string) s :
  progressItems s = [] →
  let s' :=
    afterAll (List.map (fun item => Receive (Initiate item)) items
                ++ List.map (fun f => Receive (Done f)) fs) s in
  progressItems s' = filter (fun item => file item ∉ fs) items
  ∧ ((∀ item, item ∈ items → file item ∈ fs) → progressItems s' = []).
Proof.
  intros Hempty s'.
  assert (H : progressItems s' = filter (fun item => file item ∉ fs) items).
  { unfold s', afterAll. rewrite fold_left_app.
    change (fold_left (fun s a => after a s) ?l ?x) with (afterAll l x).
    rewrite items_after_dones, items_after_initiates, Hempty. reflexivity. }
  split; [exact H |].
  intros Hcover. rewrite H. apply elem_of_nil_inv. intros item Hin.
  apply list_elem_of_filter in Hin as [Hnot Hin]. apply Hnot, Hcover, Hin.
Qed.

Lemma tracker_drains_witness :
  progressItems
    (afterAll (List.map (fun item => Receive (Initiate item))
                        [modelFile; configFile; modelFile]
                 ++ List.map (fun f => Receive (Done f))
                             ["config.json"; "onnx/encoder_model.onnx"]) s0)
  = [].
Proof.
  apply (tracker_drains [modelFile; configFile; modelFile]
           ["config.json"; "onnx/encoder_model.onnx"] s0 eq_refl).
  intros item Hin.
  apply list_elem_of_In in Hin. cbn in Hin.
  destruct Hin as [<- | [<- | [<- | []]]]; cbn; set_solver.
Defined.

End Tracker.

(** * Further properties of the transcript *)

Section Editing.

Import Transcript.

Implicit Types (t : Transcript.State) (i j : nat).

(** The text the component shows for a chunk without an edit. *)
Lemma originalText_eq t i :
  nullish (Chunk.text <$> chunkAt t i) ""
  = match currentChunks t !! i with
    | Some chunk => Chunk.text chunk
    | None => ""
    end.
Proof.
  rewrite chunkAt_currentChunks. destruct (currentChunks t !! i); reflexivity.
Qed.

(** X10: after an edit the chunk reads as the text typed, also when that
    text is empty; it counts as edited exactly when the text differs from
    the original text of the chunk; the other chunks read and count as
    before. *)
Theorem edit_then_read t i (newText : string) :
  let t' := handleTextChange i newText t in
  getChunkText t' i = newText
  ∧ isChunkEdited t' i
    = negb (String.eqb (nullish (Chunk.text <$> chunkAt t i) "") newText)
  ∧ (∀ j, j ≠ i →
       getChunkText t' j = getChunkText t j
       ∧ isChunkEdited t' j = isChunkEdited t j).
Proof.
  intros t'. unfold t', getChunkText, isChunkEdited, handleTextChange.
  cbn [editedChunks setEditedChunks].
  change (chunkAt (setEditedChunks _ t)) with (chunkAt t).
  rewrite lookup_insert_eq. repeat split; intros;
    rewrite lookup_insert_ne by congruence; reflexivity.
Qed.

Lemma edit_then_read_witness :
  getChunkText (handleTextChange 1 "" shown) 0 = getChunkText shown 0
  ∧ isChunkEdited (handleTextChange 1 "" shown) 0 = isChunkEdited shown 0.
Proof.
  destruct (edit_then_read shown 1 "") as (_ & _ & Hother).
  apply Hother. discriminate.
Defined.

(** X11: [Escape] gives the chunk its original text back, so that it no
    longer counts as edited, and ends the editing; [Enter] without Shift
    ends the editing and keeps every edit; every other key, and [Enter]
    with Shift, changes nothing. *)
Theorem keys_while_editing t i :
  (∀ shiftKey,
     let t' := handleKeyDown "Escape" shiftKey i t in
     getChunkText t' i = nullish (Chunk.text <$> chunkAt t i) ""
     ∧ isChunkEdited t' i = false
     ∧ editingChunk t' = None
     ∧ ∀ j, j ≠ i → getChunkText t' j = getChunkText t j)
  ∧ (editingChunk (handleKeyDown "Enter" false i t) = None
     ∧ editedChunks (handleKeyDown "Enter" false i t) = editedChunks t)
  ∧ (∀ key shiftKey,
       key ≠ "Escape" → key ≠ "Enter" ∨ shiftKey = true →
       handleKeyDown key shiftKey i t = t).
Proof.
  split; [| split].
  - intros shiftKey t'.
    assert (Ht' : t' = handleEscape i t).
    { unfold t', handleKeyDown. destruct t; reflexivity. }
    rewrite Ht'. clear Ht' t'. unfold handleEscape, getChunkText, isChunkEdited.
    cbn [editedChunks setEditedChunks setEditingChunk editingChunk].
    change (chunkAt (setEditingChunk _ (setEditedChunks _ t)))
      with (chunkAt t).
    rewrite lookup_insert_eq. cbn [nullish].
    rewrite String.eqb_refl. repeat split.
    intros j Hj. rewrite lookup_insert_ne by congruence. reflexivity.
  - split; reflexivity.
  - intros key shiftKey Hescape Henter. unfold handleKeyDown.
    apply String.eqb_neq in Hescape. rewrite Hescape.
    destruct Henter as [Henter | ->].
    + apply String.eqb_neq in Henter. rewrite Henter. reflexivity.
    + rewrite andb_false_r. reflexivity.
Qed.

Lemma keys_while_editing_witness :
  handleKeyDown "Enter" true 1 edited = edited
  ∧ handleKeyDown "a" false 1 edited = edited.
Proof.
  destruct (keys_while_editing edited 1) as (_ & _ & Hother).
  split; apply Hother; try discriminate; [right; reflexivity | left; discriminate].
Defined.

End Editing.

(** ** The text and subtitle exports *)

Section Strings.

Implicit Types (s a b : string) (c : ascii).

Lemma string_app_assoc a b s : (a ++ b) ++ s = a ++ (b ++ s).
Proof.
  induction a as [| c a IH]; [reflexivity |].
  change (String c ((a ++ b) ++ s) = String c (a ++ (b ++ s))).
  f_equal. exact IH.
Qed.

Lemma string_app_nil_r s : s ++ "" = s.
Proof.
  induction s as [| c s IH]; [reflexivity |].
  change (String c (s ++ "") = String c s). f_equal. exact IH.
Qed.

Lemma list_ascii_app a b :
  list_ascii_of_string (a ++ b)
  = (list_ascii_of_string a ++ list_ascii_of_string b)%list.
Proof.
  induction a as [| c a IH]; [reflexivity |].
  change (c :: list_ascii_of_string (a ++ b)
          = c :: (list_ascii_of_string a ++ list_ascii_of_string b)%list).
  f_equal. exact IH.
Qed.

Lemma string_of_list_app (x y : list ascii) :
  string_of_list_ascii (x ++ y)
  = string_of_list_ascii x ++ string_of_list_ascii y.
Proof.
  induction x as [| c x IH]; [reflexivity |].
  change (String c (string_of_list_ascii (x ++ y))
          = String c (string_of_list_ascii x ++ string_of_list_ascii y)).
  f_equal. exact IH.
Qed.

Lemma reverse_involutive s : Text.reverse (Text.reverse s) = s.
Proof.
  unfold Text.reverse.
  rewrite list_ascii_of_string_of_list_ascii, rev_involutive.
  apply string_of_list_ascii_of_string.
Qed.

Lemma reverse_app a b :
  Text.reverse (a ++ b) = Text.reverse b ++ Text.reverse a.
Proof.
  unfold Text.reverse. rewrite list_ascii_app, rev_app_distr.
  apply string_of_list_app.
Qed.

Lemma trimStart_split s :
  ∃ a, s = a ++ Text.trimStart s
       ∧ Forall (fun c => Regex.isWhiteSpace c = true) (list_ascii_of_string a).
Proof.
  induction s as [| c s (a & Hs & Ha)].
  - exists "". split; [reflexivity | constructor].
  - cbn [Text.trimStart]. destruct (Regex.isWhiteSpace c) eqn:Hc.
    + exists (String c a). split.
      * change (String c s = String c (a ++ Text.trimStart s)). f_equal.
        exact Hs.
      * constructor; assumption.
    + exists "". split; [reflexivity | constructor].
Qed.

Lemma trimStart_head s c rest :
  Text.trimStart s = String c rest → Regex.isWhiteSpace c = false.
Proof.
  induction s as [| c0 s IH]; [discriminate |].
  cbn [Text.trimStart]. destruct (Regex.isWhiteSpace c0) eqn:Hc0; [exact IH |].
  intros H. injection H as <- _. exact Hc0.
Qed.

Lemma trimEnd_split s :
  ∃ b, s = Text.trimEnd s ++ b
       ∧ Forall (fun c => Regex.isWhiteSpace c = true) (list_ascii_of_string b).
Proof.
  destruct (trimStart_split (Text.reverse s)) as (a & Hs & Ha).
  exists (Text.reverse a). split.
  - apply (f_equal Text.reverse) in Hs.
    rewrite reverse_involutive, reverse_app in Hs. exact Hs.
  - unfold Text.reverse. rewrite list_ascii_of_string_of_list_ascii.
    apply Forall_rev. exact Ha.
Qed.

Lemma trimEnd_last s front c :
  Text.trimEnd s = front ++ String c "" → Regex.isWhiteSpace c = false.
Proof.
  intros H. apply (f_equal Text.reverse) in H. unfold Text.trimEnd in H.
  rewrite reverse_involutive, reverse_app in H.
  apply (trimStart_head _ _ _ H).
Qed.

(** [trim] takes white space off both ends, and nothing else. *)
Lemma trim_spec s :
  (∃ a b, s = a ++ Text.trim s ++ b
          ∧ Forall (fun c => Regex.isWhiteSpace c = true)
                   (list_ascii_of_string a)
          ∧ Forall (fun c => Regex.isWhiteSpace c = true)
                   (list_ascii_of_string b))
  ∧ (∀ c rest, Text.trim s = String c rest → Regex.isWhiteSpace c = false)
  ∧ (∀ front c, Text.trim s = front ++ String c "" →
                Regex.isWhiteSpace c = false).
Proof.
  unfold Text.trim.
  destruct (trimStart_split s) as (a & Hs & Ha).
  destruct (trimEnd_split (Text.trimStart s)) as (b & Hx & Hb).
  split; [| split].
  - exists a, b. split; [| split; assumption].
    rewrite <- Hx. exact Hs.
  - intros c rest Hhead. rewrite Hhead in Hx.
    apply (trimStart_head s c (rest ++ b)). exact Hx.
  - intros front c Hlast. apply (trimEnd_last _ _ _ Hlast).
Qed.

End Strings.

Section Exports.

Import Transcript.

Implicit Types (t : Transcript.State).

(** X12: the text export is the effective texts of the chunks, in order
    and with nothing between them, without the white space at the two
    ends: it neither starts nor ends with white space. *)
Theorem exportTXT_is_trimmed_concatenation t :
  (∃ a b,
     JS.join "" (imap (fun i _ => getChunkText t i) (currentChunks t))
     = a ++ exportTXT t ++ b
     ∧ Forall (fun c => Regex.isWhiteSpace c = true) (list_ascii_of_string a)
     ∧ Forall (fun c => Regex.isWhiteSpace c = true) (list_ascii_of_string b))
  ∧ (∀ c rest, exportTXT t = String c rest → Regex.isWhiteSpace c = false)
  ∧ (∀ front c, exportTXT t = front ++ String c "" →
                Regex.isWhiteSpace c = false).
Proof. apply trim_spec. Qed.

Lemma exportTXT_is_trimmed_concatenation_witness :
  exportTXT edited = "HelloWorld!" ∧ Regex.isWhiteSpace "H" = false.
Proof.
  split; [vm_compute; reflexivity |].
  destruct (exportTXT_is_trimmed_concatenation edited) as (_ & Hhead & _).
  apply (Hhead "H"%char "elloWorld!"). vm_compute. reflexivity.
Defined.

(** X13: without chunks (no output, or an output with an empty chunk
    list) the three exports are the empty text, the empty array and the
    empty subtitle file, whatever the overlay holds. *)
Theorem exports_without_chunks t :
  currentChunks t = [] →
  exportTXT t = "" ∧ exportJSON t = "[]"
  ∧ ∀ formatSrtTimeRange, exportSRT formatSrtTimeRange t = "".
Proof.
  intros H. unfold exportTXT, exportJSON, exportSRT. rewrite H.
  repeat split; reflexivity.
Qed.

Lemma exports_without_chunks_witness :
  editedChunks cleared !! 0 = Some "Hello"
  ∧ exportTXT cleared = "" ∧ exportJSON cleared = "[]".
Proof.
  split; [vm_compute; reflexivity |].
  destruct (exports_without_chunks cleared) as (Htxt & Hjson & _);
    [reflexivity |].
  split; assumption.
Defined.

Lemma srtLoop_acc (format : JS.number → JS.number → string) t
  (chunks : list Chunk.t) (i : nat) (srt : string) :
  srtLoop format t chunks i srt = srt ++ srtLoop format t chunks i "".
Proof.
  revert i srt. induction chunks as [| chunk rest IH]; intros i srt.
  - cbn. symmetry. apply string_app_nil_r.
  - cbn [srtLoop].
    match goal with
    | |- srtLoop _ _ _ _ ?x = _ ++ srtLoop _ _ _ _ ?y =>
        rewrite (IH (S i) x), (IH (S i) y)
    end.
    rewrite !string_app_assoc. reflexivity.
Qed.

(** X14: the subtitle export is one cue per chunk, in order: the number of
    the chunk counted from 1, the time range from the start of the chunk
    to its end, or to its start when the end is open, the effective text,
    and an empty line. *)
Theorem exportSRT_cues (format : JS.number → JS.number → string) t :
  exportSRT format t
  = JS.join ""
      (imap (fun i chunk =>
               JS.integerDigits (Z.of_nat (i + 1)) ++ String JS.newline ""
               ++ format (fst (Chunk.timestamp chunk))
                         (match snd (Chunk.timestamp chunk) with
                          | Some e => e
                          | None => fst (Chunk.timestamp chunk)
                          end)
               ++ String JS.newline ""
               ++ getChunkText t i
               ++ String JS.newline (String JS.newline ""))
            (currentChunks t)).
Proof.
  unfold exportSRT. generalize (currentChunks t) as chunks.
  assert (H : ∀ chunks k,
             srtLoop format t chunks k ""
             = JS.join ""
                 (imap (fun i chunk =>
                    JS.integerDigits (Z.of_nat (k + i + 1))
                    ++ String JS.newline ""
                    ++ format (fst (Chunk.timestamp chunk))
                              (match snd (Chunk.timestamp chunk) with
                               | Some e => e
                               | None => fst (Chunk.timestamp chunk)
                               end)
                    ++ String JS.newline ""
                    ++ getChunkText t (k + i)
                    ++ String JS.newline (String JS.newline "")) chunks)).
  { induction chunks as [| chunk rest IH]; intros k; [reflexivity |].
    cbn [srtLoop imap]. rewrite srtLoop_acc, IH.
    rewrite Nat.add_0_r.
    rewrite (imap_ext _ (fun i chunk0 =>
               JS.integerDigits (Z.of_nat (k + S i + 1))
               ++ String JS.newline ""
               ++ format (fst (Chunk.timestamp chunk0))
                         (match snd (Chunk.timestamp chunk0) with
                          | Some e => e
                          | None => fst (Chunk.timestamp chunk0)
                          end)
               ++ String JS.newline ""
               ++ getChunkText t (k + S i)
               ++ String JS.newline (String JS.newline "")) rest)
      by (intros; cbn; rewrite !Nat.add_succ_r; reflexivity).
    destruct rest as [| chunk1 rest].
    - cbn [imap JS.join]. rewrite string_app_nil_r.
      cbn. rewrite !string_app_assoc. reflexivity.
    - cbn [imap JS.join]. cbn -[JS.join JS.integerDigits Z.of_nat Nat.add].
      rewrite !string_app_assoc. reflexivity. }
  intros chunks. rewrite H. reflexivity.
Qed.

End Exports.

(** ** The JSON export, in general *)

Section JsonNumbers.

Implicit Types (s x y : string) (c : ascii).

Lemma noSpace_app x y : Text.noSpace (x ++ y) ↔ Text.noSpace x ∧ Text.noSpace y.
Proof. unfold Text.noSpace. rewrite list_ascii_app. apply Forall_app. Qed.

Lemma digit_noSpace (n : Z) : Regex.isWhiteSpace (JS.digit (n mod 10)) = false.
Proof.
  pose proof (Z.mod_pos_bound n 10 ltac:(lia)) as H.
  assert (Hd : (n mod 10 = 0 ∨ n mod 10 = 1 ∨ n mod 10 = 2 ∨ n mod 10 = 3
                ∨ n mod 10 = 4 ∨ n mod 10 = 5 ∨ n mod 10 = 6 ∨ n mod 10 = 7
                ∨ n mod 10 = 8 ∨ n mod 10 = 9)%Z) by lia.
  repeat (destruct Hd as [-> | Hd]; [reflexivity |]). rewrite Hd. reflexivity.
Qed.

Lemma fixedDigits_noSpace (k : nat) (n : Z) (acc : string) :
  Text.noSpace acc → Text.noSpace (JS.fixedDigits k n acc).
Proof.
  revert n acc. induction k as [| k IH]; intros n acc Hacc; [exact Hacc |].
  cbn [JS.fixedDigits]. apply IH. constructor; [apply digit_noSpace | exact Hacc].
Qed.

Lemma dropZeros_Forall (P : ascii → Prop) (l : list ascii) :
  Forall P l → Forall P (JS.dropZeros l).
Proof.
  induction 1 as [| c l Hc Hl IH]; [constructor |].
  cbn [JS.dropZeros]. destruct (Ascii.eqb c "0"); [exact IH |].
  constructor; assumption.
Qed.

Lemma stripTrailingZeros_noSpace s :
  Text.noSpace s → Text.noSpace (JS.stripTrailingZeros s).
Proof.
  unfold Text.noSpace, JS.stripTrailingZeros. intros H.
  rewrite list_ascii_of_string_of_list_ascii.
  apply Forall_rev, dropZeros_Forall, Forall_rev. exact H.
Qed.

Lemma uint_digits_noSpace (d : Decimal.uint) :
  Text.noSpace (NilEmpty.string_of_uint d).
Proof.
  induction d; cbn [NilEmpty.string_of_uint]; try constructor;
    try reflexivity; assumption.
Qed.

Lemma integerDigits_noSpace (n : Z) :
  Text.noSpace (JS.integerDigits n) ∧ JS.integerDigits n ≠ "".
Proof.
  unfold JS.integerDigits, NilZero.string_of_uint.
  destruct (N.to_uint (Z.to_N n)) eqn:E;
    (split; [| discriminate]);
    try (rewrite <- E; apply uint_digits_noSpace).
  repeat constructor.
Qed.

Lemma numberToString_noSpace (x : JS.number) :
  Text.noSpace (JS.numberToString x) ∧ JS.numberToString x ≠ "".
Proof.
  unfold JS.numberToString.
  destruct (integerDigits_noSpace
              (Z.abs (JS.mantissa x) / 10 ^ Z.of_nat (JS.scale x)))
    as [Hint Hne].
  set (int := JS.integerDigits _) in *.
  set (frac := JS.stripTrailingZeros _).
  assert (Hfrac : Text.noSpace frac).
  { apply stripTrailingZeros_noSpace, fixedDigits_noSpace. constructor. }
  split.
  - apply noSpace_app. split; [destruct (_ <? _)%Z; repeat constructor |].
    apply noSpace_app. split; [exact Hint |].
    destruct (String.eqb frac ""); [constructor |].
    apply noSpace_app. split; [repeat constructor | exact Hfrac].
  - destruct (_ <? _)%Z; [discriminate |].
    destruct int; [contradiction | discriminate].
Qed.

End JsonNumbers.

Section JsonRegex.

Implicit Types (s x tail rest : string) (c : ascii).

Lemma replaceFrom_skip (x r : string) :
  Regex.replaceFrom (String.length x) (x ++ r) = Regex.replaceFrom 0 r.
Proof.
  induction x as [| c x IH]; [reflexivity |].
  change (Regex.replaceFrom (S (String.length x)) (String c (x ++ r))
          = Regex.replaceFrom 0 r).
  cbn [Regex.replaceFrom]. exact IH.
Qed.

Lemma replaceFrom_pass c s :
  Regex.dropPrefix (Regex.group1 ++ "[") (String c s) = None →
  Regex.replaceFrom 0 (String c s) = String c (Regex.replaceFrom 0 s).
Proof.
  intros H. cbn [Regex.replaceFrom]. unfold Regex.matchAt. rewrite H.
  reflexivity.
Qed.

Lemma dropPrefix_app (p s : string) : Regex.dropPrefix p (p ++ s) = Some s.
Proof.
  induction p as [| c p IH]; [reflexivity |].
  change (Regex.dropPrefix (String c p) (String c (p ++ s)) = Some s).
  cbn [Regex.dropPrefix]. rewrite Ascii.eqb_refl. exact IH.
Qed.

Lemma span_run (p : ascii → bool) x tail :
  Forall (fun c => p c = true) (list_ascii_of_string x) →
  match tail with
  | String d _ => p d = false
  | EmptyString => True
  end →
  Regex.span p (x ++ tail) = (x, tail).
Proof.
  intros Hx Htail. induction x as [| c x IH].
  - destruct tail as [| d tail]; [reflexivity |].
    change ("" ++ String d tail) with (String d tail).
    cbn [Regex.span]. rewrite Htail. reflexivity.
  - apply Forall_cons in Hx as [Hc Hx].
    change (Regex.span p (String c (x ++ tail)) = (String c x, tail)).
    cbn [Regex.span]. rewrite Hc, IH by exact Hx. reflexivity.
Qed.

Lemma plus_run (p : ascii → bool) x tail :
  x ≠ "" →
  Forall (fun c => p c = true) (list_ascii_of_string x) →
  match tail with
  | String d _ => p d = false
  | EmptyString => True
  end →
  Regex.plus p (x ++ tail) = Some (x, tail).
Proof.
  intros Hne Hx Htail. unfold Regex.plus. rewrite span_run by assumption.
  destruct x; [contradiction | reflexivity].
Qed.

Lemma noSpace_negb x :
  Text.noSpace x →
  Forall (fun c => negb (Regex.isWhiteSpace c) = true) (list_ascii_of_string x).
Proof.
  unfold Text.noSpace. intros H. eapply Forall_impl; [exact H |].
  intros c Hc. cbn beta in Hc |- *. rewrite Hc. reflexivity.
Qed.

(** The timestamp as [JSON.stringify] writes it is matched, and replaced
    by its one-line form. *)
Lemma replace_timestamp (a e rest : string) :
  Text.noSpace a → a ≠ "" → Text.noSpace e → e ≠ "" →
  Regex.replaceFrom 0
    ((Regex.group1 ++ "[")
       ++ (String JS.newline "      "
             ++ ((a ++ ",")
                   ++ (String JS.newline "      "
                         ++ (e ++ (String JS.newline "    "
                                     ++ String "]" rest))))))
  = Regex.group1 ++ "[" ++ (a ++ ",") ++ " " ++ e ++ "]"
      ++ Regex.replaceFrom 0 rest.
Proof.
  intros Ha Hane He Hene.
  set (body := String JS.newline "      "
                 ++ ((a ++ ",")
                       ++ (String JS.newline "      "
                             ++ (e ++ (String JS.newline "    "
                                         ++ String "]" rest))))).
  assert (Hmatch : Regex.matchAt ((Regex.group1 ++ "[") ++ body)
                   = Some (a ++ ",", e, rest)).
  { unfold Regex.matchAt. rewrite dropPrefix_app. cbn [mbind option_bind].
    unfold body.
    rewrite (plus_run Regex.isWhiteSpace (String JS.newline "      "));
      [| discriminate | repeat constructor
       | destruct a as [| a0 a']; [contradiction |];
         apply Forall_cons in Ha as [Ha0 _]; exact Ha0].
    cbn [mbind option_bind].
    rewrite (plus_run (fun c => negb (Regex.isWhiteSpace c)) (a ++ ","));
      [| destruct a; [contradiction | discriminate]
       | apply noSpace_negb, noSpace_app; split; [exact Ha | repeat constructor]
       | reflexivity].
    cbn [mbind option_bind].
    rewrite (plus_run Regex.isWhiteSpace (String JS.newline "      "));
      [| discriminate | repeat constructor
       | destruct e as [| e0 e']; [contradiction |];
         apply Forall_cons in He as [He0 _]; exact He0].
    cbn [mbind option_bind].
    rewrite (plus_run (fun c => negb (Regex.isWhiteSpace c)) e);
      [| exact Hene | apply noSpace_negb; exact He | reflexivity].
    cbn [mbind option_bind].
    rewrite (plus_run Regex.isWhiteSpace (String JS.newline "    "));
      [| discriminate | repeat constructor | reflexivity].
    reflexivity. }
  change ((Regex.group1 ++ "[") ++ body)
    with (String " " (("   " ++ JS.quoted "timestamp" ++ ": [") ++ body))
    in *.
  cbn [Regex.replaceFrom]. rewrite Hmatch.
  replace (String.length (("   " ++ JS.quoted "timestamp" ++ ": [") ++ body)
           - String.length rest)
    with (String.length
            (("   " ++ JS.quoted "timestamp" ++ ": [")
               ++ String JS.newline "      "
               ++ (a ++ ",") ++ String JS.newline "      "
               ++ e ++ String JS.newline "    " ++ "]")).
  2:{ unfold body. rewrite !string_length_app. cbn [String.length]. lia. }
  replace (("   " ++ JS.quoted "timestamp" ++ ": [") ++ body)
    with ((("   " ++ JS.quoted "timestamp" ++ ": [")
             ++ String JS.newline "      "
             ++ (a ++ ",") ++ String JS.newline "      "
             ++ e ++ String JS.newline "    " ++ "]") ++ rest).
  2:{ unfold body. rewrite !string_app_assoc. reflexivity. }
  rewrite replaceFrom_skip. rewrite !string_app_assoc. reflexivity.
Qed.

End JsonRegex.

Section JsonText.

Implicit Types (s u r tail : string) (c : ascii).

Lemma quoteBody_cons c u tail :
  JS.quoteBody (String c u) ++ tail
  = JS.quoteCodeUnit c ++ (JS.quoteBody u ++ tail).
Proof. cbn [JS.quoteBody]. apply string_app_assoc. Qed.

(** Inside a quoted text and up to the quote that closes it, nothing
    looks like the key of a timestamp, however many spaces come first:
    a quote in the text is written after a backslash. *)
Lemma body_has_no_key u r :
  let body := JS.quoteBody u ++ String JS.dquote (String "," r) in
  Regex.dropPrefix (JS.quoted "timestamp" ++ ": [") body = None
  ∧ Regex.dropPrefix (" " ++ JS.quoted "timestamp" ++ ": [") body = None
  ∧ Regex.dropPrefix ("  " ++ JS.quoted "timestamp" ++ ": [") body = None
  ∧ Regex.dropPrefix ("   " ++ JS.quoted "timestamp" ++ ": [") body = None.
Proof.
  induction u as [| c u IH]; cbn zeta.
  - repeat split; reflexivity.
  - rewrite quoteBody_cons. cbn zeta in IH.
    destruct IH as (H0 & H1 & H2 & H3).
    generalize dependent (JS.quoteBody u ++ String JS.dquote (String "," r)).
    intros body H0 H1 H2 H3.
    destruct c as [[] [] [] [] [] [] [] []];
      (split; [reflexivity |]);
      (split; [first [reflexivity | exact H0] |]);
      (split; [first [reflexivity | exact H1] |]);
      first [reflexivity | exact H2].
Qed.

Lemma quoteBody_pass u r :
  Regex.replaceFrom 0 (JS.quoteBody u ++ String JS.dquote (String "," r))
  = JS.quoteBody u
      ++ Regex.replaceFrom 0 (String JS.dquote (String "," r)).
Proof.
  induction u as [| c u IH]; [reflexivity |].
  rewrite !quoteBody_cons, <- IH.
  pose proof (body_has_no_key u r) as (_ & _ & _ & H3). 
  generalize dependent (JS.quoteBody u ++ String JS.dquote (String "," r)).
  intros body _ H3.
  destruct c as [[] [] [] [] [] [] [] []];
    first [reflexivity | apply replaceFrom_pass; exact H3].
Qed.

End JsonText.

Section JsonChunks.

Import Transcript.

Implicit Types (text : string) (chunk : Chunk.t) (X : string).

Lemma quoteJSONString_app text X :
  JS.quoteJSONString text ++ X
  = String JS.dquote (JS.quoteBody text ++ String JS.dquote X).
Proof.
  unfold JS.quoteJSONString.
  change (String JS.dquote ((JS.quoteBody text ++ String JS.dquote "") ++ X)
          = String JS.dquote (JS.quoteBody text ++ String JS.dquote X)).
  rewrite string_app_assoc. reflexivity.
Qed.

Lemma endText_noSpace chunk :
  Text.noSpace (endText chunk) ∧ endText chunk ≠ "".
Proof.
  unfold endText. destruct (snd (Chunk.timestamp chunk)) as [e |].
  - apply numberToString_noSpace.
  - split; [repeat constructor | discriminate].
Qed.

Lemma serialize_chunk_form text chunk X :
  JS.serialize "  " (chunkObject text chunk) ++ X
  = ("{" ++ String JS.newline "    " ++ JS.quoted "text" ++ ": ")
      ++ String JS.dquote
           (JS.quoteBody text
              ++ String JS.dquote
                   (String ","
                      (String JS.newline
                         ((Regex.group1 ++ "[")
                            ++ (String JS.newline "      "
                                  ++ ((JS.numberToString
                                         (fst (Chunk.timestamp chunk)) ++ ",")
                                        ++ (String JS.newline "      "
                                              ++ (endText chunk
                                                    ++ (String JS.newline "    "
                                                          ++ String "]"
                                                               (String JS.newline
                                                                  ("  }" ++ X))))))))))).
Proof.
  unfold chunkObject, endText. cbn [JS.serialize List.map JS.join fst snd].
  destruct (snd (Chunk.timestamp chunk)) as [e |];
    cbn [JS.serialize List.map JS.join fst snd];
    rewrite !string_app_assoc, (quoteJSONString_app text), ?string_app_assoc;
    reflexivity.
Qed.

Lemma exportedChunk_form text chunk X :
  exportedChunk text chunk ++ X
  = ("{" ++ String JS.newline "    " ++ JS.quoted "text" ++ ": ")
      ++ String JS.dquote
           (JS.quoteBody text
              ++ String JS.dquote
                   (String ","
                      (String JS.newline
                         (Regex.group1 ++ "["
                            ++ (JS.numberToString
                                  (fst (Chunk.timestamp chunk)) ++ ",")
                            ++ " " ++ endText chunk ++ "]"
                            ++ String JS.newline ("  }" ++ X))))).
Proof.
  unfold exportedChunk.
  rewrite !string_app_assoc, (quoteJSONString_app text), ?string_app_assoc.
  reflexivity.
Qed.

Lemma replace_object_start (T : string) :
  Regex.replaceFrom 0
    (("{" ++ String JS.newline "    " ++ JS.quoted "text" ++ ": ")
       ++ String JS.dquote T)
  = ("{" ++ String JS.newline "    " ++ JS.quoted "text" ++ ": ")
      ++ String JS.dquote (Regex.replaceFrom 0 T).
Proof. reflexivity. Qed.

Lemma replace_text_end (M : string) :
  Regex.replaceFrom 0 (String JS.dquote (String "," (String JS.newline M)))
  = String JS.dquote (String "," (String JS.newline (Regex.replaceFrom 0 M))).
Proof. reflexivity. Qed.

Lemma replace_object_end (X : string) :
  Regex.replaceFrom 0 (String JS.newline ("  }" ++ X))
  = String JS.newline ("  }" ++ Regex.replaceFrom 0 X).
Proof. reflexivity. Qed.

(** One chunk of the pretty-printed array, whatever follows it. *)
Lemma replace_chunk text chunk X :
  Regex.replaceFrom 0 (JS.serialize "  " (chunkObject text chunk) ++ X)
  = exportedChunk text chunk ++ Regex.replaceFrom 0 X.
Proof.
  rewrite serialize_chunk_form, exportedChunk_form.
  rewrite replace_object_start, quoteBody_pass, replace_text_end.
  destruct (numberToString_noSpace (fst (Chunk.timestamp chunk))) as [Ha Hane].
  destruct (endText_noSpace chunk) as [He Hene].
  rewrite replace_timestamp by assumption.
  rewrite replace_object_end.
  rewrite !string_app_assoc. reflexivity.
Qed.

End JsonChunks.

Section JsonArray.

Import Transcript.

Implicit Types (text : string) (chunk : Chunk.t) (X : string).

Lemma replace_led_object (lead T : string) :
  lead = "[" ++ String JS.newline "  " ∨ lead = "," ++ String JS.newline "  " →
  Regex.replaceFrom 0
    (lead ++ (("{" ++ String JS.newline "    " ++ JS.quoted "text" ++ ": ")
                ++ String JS.dquote T))
  = lead ++ Regex.replaceFrom 0
              (("{" ++ String JS.newline "    " ++ JS.quoted "text" ++ ": ")
                 ++ String JS.dquote T).
Proof. intros [-> | ->]; reflexivity. Qed.

(** A chunk after the bracket that opens the array or after the comma
    that ends the chunk before it. *)
Lemma replace_led_chunk (lead : string) text chunk X :
  lead = "[" ++ String JS.newline "  " ∨ lead = "," ++ String JS.newline "  " →
  Regex.replaceFrom 0
    (lead ++ (JS.serialize "  " (chunkObject text chunk) ++ X))
  = lead ++ (exportedChunk text chunk ++ Regex.replaceFrom 0 X).
Proof.
  intros Hlead. rewrite serialize_chunk_form.
  rewrite (replace_led_object lead _ Hlead).
  rewrite <- serialize_chunk_form, replace_chunk. reflexivity.
Qed.

Lemma join_foldr (sep x Z : string) (l : list string) :
  JS.join sep (x :: l) ++ Z
  = x ++ foldr (fun y acc => sep ++ (y ++ acc)) Z l.
Proof.
  revert x. induction l as [| y l IH]; intros x; [reflexivity |].
  change (JS.join sep (x :: y :: l)) with (x ++ sep ++ JS.join sep (y :: l)).
  rewrite !string_app_assoc, IH. reflexivity.
Qed.

Lemma replace_following_chunks (g : nat → string) (chunks : list Chunk.t) :
  Regex.replaceFrom 0
    (foldr (fun y acc => ("," ++ String JS.newline "  ") ++ (y ++ acc))
           (String JS.newline "]")
           (List.map (JS.serialize "  ")
              (imap (fun i chunk => chunkObject (g i) chunk) chunks)))
  = foldr (fun y acc => ("," ++ String JS.newline "  ") ++ (y ++ acc))
          (String JS.newline "]")
          (imap (fun i chunk => exportedChunk (g i) chunk) chunks).
Proof.
  revert g. induction chunks as [| chunk chunks IH]; intros g; [reflexivity |].
  cbn [imap List.map foldr].
  rewrite replace_led_chunk by (right; reflexivity).
  do 2 f_equal. exact (IH (fun i => g (S i))).
Qed.

(** X22: the JSON export of chunks of the declared shape (objects with
    the properties [text] and [timestamp], in this order, and no other),
    with texts of code units below 256 and numbers printed without an
    exponent, for every list of such chunks and every overlay: the empty
    array, or an opening bracket, the chunks separated by a comma and a
    line end, and the closing bracket, each chunk an object on four lines
    with the effective text, quoted as JSON, and the timestamp on one
    line.  The replacement touches the timestamps only: the text of a
    chunk is exported as [JSON.stringify] quotes it, even when it reads
    like a timestamp line itself. *)
Theorem exportJSON_layout (t : Transcript.State) :
  exportJSON t
  = match currentChunks t with
    | [] => "[]"
    | chunks =>
        "[" ++ String JS.newline "  "
        ++ JS.join ("," ++ String JS.newline "  ")
             (imap (fun i chunk => exportedChunk (getChunkText t i) chunk)
                   chunks)
        ++ String JS.newline "]"
    end.
Proof.
  unfold exportJSON, Regex.replaceTimestamps, JS.stringify.
  destruct (currentChunks t) as [| chunk chunks]; [reflexivity |].
  cbn [imap].
  change (JS.serialize "" (JS.JArray (?o :: ?os)))
    with ("[" ++ String JS.newline "  "
          ++ (JS.join ("," ++ String JS.newline "  ")
                (List.map (JS.serialize "  ") (o :: os))
              ++ String JS.newline "]")).
  cbn [List.map]. rewrite !join_foldr.
  change ("[" ++ String JS.newline "  " ++ ?x)
    with (("[" ++ String JS.newline "  ") ++ x).
  change (editedChunkData t 0 chunk)
    with (chunkObject (getChunkText t 0) chunk).
  rewrite replace_led_chunk by (left; reflexivity).
  do 2 f_equal.
  exact (replace_following_chunks (fun i => getChunkText t (S i)) chunks).
Qed.

Example exportJSON_keeps_lookalike_text :
  exportJSON timestampLookalike
  = lines
      ["[";
       "  {";
       "    " ++ JS.quoted "text" ++ ": "
         ++ JS.quoted ("    \" ++ JS.quoted "timestamp\" ++ ": [\n1\n2\n]")
         ++ ",";
       "    " ++ JS.quoted "timestamp" ++ ": [0, null]";
       "  }";
       "]"].
Proof. vm_compute. reflexivity. Qed.

End JsonArray.

(** ** The hook and the component together *)

Section HookAndComponent.

Import Transcript.

Implicit Types (s : Transcriber.State) (t : Transcript.State).

(** X15: the export buttons follow the last transcript message.  They are
    there once [complete] has arrived, and not while [update] messages
    stream in, nor after the input changed or a transcription started.
    An [error] after an [update] clears the busy flag of the hook but
    leaves the interim transcript, still marked busy, so the buttons
    stay away. *)
Theorem export_buttons_follow_messages s t (d : TranscriberUpdateData) :
  exportAvailable (receive (transcript (after (Receive (Complete d)) s)) t)
  = true
  ∧ exportAvailable (receive (transcript (after (Receive (Update d)) s)) t)
    = false
  ∧ (∀ m,
       let s' := afterAll [Receive (Update d); Receive (Error m)] s in
       isBusy s' = false
       ∧ transcript s' = Some (transcriptOf true d)
       ∧ exportAvailable (receive (transcript s') t) = false)
  ∧ exportAvailable (receive (transcript (after OnInputChange s)) t) = false
  ∧ (∀ audioData,
       exportAvailable
         (receive (transcript (after (Start (Some audioData)) s)) t) = false).
Proof.
  assert (Hupdate : transcript (after (Receive (Update d)) s)
                    = Some (transcriptOf true d)).
  { destruct (after_fields (Receive (Update d)) s) as (Ht & _). rewrite Ht.
    reflexivity. }
  split; [| split; [| split; [| split]]].
  - destruct (after_fields (Receive (Complete d)) s) as (Ht & _). rewrite Ht.
    reflexivity.
  - rewrite Hupdate. reflexivity.
  - intros m s'. unfold s'. rewrite !afterAll_cons.
    change (afterAll [] ?x) with x.
    destruct (after_fields (Receive (Error m)) (after (Receive (Update d)) s))
      as (Ht & Hb & _).
    rewrite Ht, Hb. cbn [handler onMessage run exec fst transcript isBusy].
    rewrite Hupdate. repeat split; reflexivity.
  - destruct (after_fields OnInputChange s) as (Ht & _). rewrite Ht.
    reflexivity.
  - intros audioData. destruct (mixdown_total audioData) as [audio Haudio].
    destruct (start_with_buffer s audioData audio Haudio) as (_ & _ & Ht & _).
    rewrite Ht. reflexivity.
Qed.

End HookAndComponent.

(** ** Playing chunks *)

Section Player.

Import Transcript.

Implicit Types (t : Transcript.State) (audio : AudioElement)
  (p : Transcript.State * AudioElement) (now e : JS.number).

Lemma handleTimeUpdate_keeps e p :
  currentTime (snd (handleTimeUpdate e p)) = currentTime (snd p)
  ∧ (stopped p → stopped (handleTimeUpdate e p))
  ∧ (Text.geq (currentTime (snd p)) e = true →
     stopped (handleTimeUpdate e p))
  ∧ (Text.geq (currentTime (snd p)) e = false → handleTimeUpdate e p = p).
Proof.
  destruct p as [t audio]. unfold handleTimeUpdate, stopped. cbn [snd fst].
  destruct (Text.geq (currentTime audio) e); cbn;
    repeat split; auto; try discriminate; tauto.
Qed.

Lemma dispatch_stops (ls : list JS.number) p :
  stopped p ∨ (∃ e, e ∈ ls ∧ Text.geq (currentTime (snd p)) e = true) →
  stopped (fold_left (fun p e => handleTimeUpdate e p) ls p).
Proof.
  revert p. induction ls as [| e0 ls IH]; intros p H; cbn [fold_left].
  - destruct H as [H | (e & Hin & _)]; [exact H |].
    apply not_elem_of_nil in Hin. contradiction.
  - destruct (handleTimeUpdate_keeps e0 p) as (Htime & Hkeep & Hfire & _).
    apply IH. destruct H as [H | (e & Hin & Hge)]; [left; auto |].
    apply elem_of_cons in Hin as [-> | Hin]; [left; auto |].
    right. exists e. rewrite Htime. auto.
Qed.

Lemma dispatch_idle (ls : list JS.number) p :
  Forall (fun e => Text.geq (currentTime (snd p)) e = false) ls →
  fold_left (fun p e => handleTimeUpdate e p) ls p = p.
Proof.
  induction 1 as [| e ls He _ IH]; cbn [fold_left]; [reflexivity |].
  destruct (handleTimeUpdate_keeps e p) as (_ & _ & _ & Hidle).
  rewrite Hidle by exact He. exact IH.
Qed.

Lemma timeupdate_stops_at_end_time_aux t audio now :
  (∃ e, e ∈ listeners audio ∧ Text.geq now e = true) →
  stopped (timeupdate now (t, audio)).
Proof.
  intros H. unfold timeupdate. cbn [listeners].
  apply dispatch_stops. right. exact H.
Qed.

(** X16: [playChunk] does nothing without audio and nothing for an index
    past the chunk list; for a chunk it starts the element at the start of
    the chunk and adds one listener, whose end time is the end of the
    chunk, or its start when the end is open. *)
Theorem playChunk_guards t audio (i : nat) :
  playChunk None i (t, audio) = (t, audio)
  ∧ (∀ url, Datatypes.length (currentChunks t) ≤ i →
            playChunk (Some url) i (t, audio) = (t, audio))
  ∧ (∀ url chunk, currentChunks t !! i = Some chunk →
       let p' := playChunk (Some url) i (t, audio) in
       playingChunk (fst p') = Some i
       ∧ paused (snd p') = false
       ∧ currentTime (snd p') = fst (Chunk.timestamp chunk)
       ∧ listeners (snd p')
         = (listeners audio
              ++ [match snd (Chunk.timestamp chunk) with
                  | Some e => e
                  | None => fst (Chunk.timestamp chunk)
                  end])%list
       ∧ editedChunks (fst p') = editedChunks t).
Proof.
  split; [reflexivity |]. split.
  - intros url Hi. unfold playChunk. rewrite chunkAt_currentChunks.
    rewrite lookup_ge_None_2 by exact Hi. reflexivity.
  - intros url chunk Hchunk p'. unfold p', playChunk.
    rewrite chunkAt_currentChunks, Hchunk. cbn.
    destruct (snd (Chunk.timestamp chunk)); repeat split; reflexivity.
Qed.

Lemma playChunk_guards_witness :
  playChunk (Some "blob:audio") 2 (shown, silentPlayer) = (shown, silentPlayer)
  ∧ listeners (snd (playChunk (Some "blob:audio") 1 (shown, silentPlayer)))
    = [JS.Number 15 1].
Proof.
  destruct (playChunk_guards shown silentPlayer 2) as (_ & Hpast & _).
  destruct (playChunk_guards shown silentPlayer 1) as (_ & _ & Hplay).
  split.
  - apply Hpast. vm_compute. lia.
  - apply (Hplay "blob:audio" (Chunk.Make "world" (JS.Number 15 1, None))).
    reflexivity.
Defined.

(** X17: a [timeupdate] at a time that has reached the end time of one of
    the listeners leaves the element paused and no chunk marked as
    playing; at a time before the end time of every listener it changes
    nothing but the current time. *)
Theorem timeupdate_stops_at_end_time t audio now :
  ((∃ e, e ∈ listeners audio ∧ Text.geq now e = true) →
   stopped (timeupdate now (t, audio)))
  ∧ (Forall (fun e => Text.geq now e = false) (listeners audio) →
     timeupdate now (t, audio)
     = (t, {| src := src audio; currentTime := now; paused := paused audio;
              listeners := listeners audio |})).
Proof.
  split; [apply timeupdate_stops_at_end_time_aux |].
  intros H. unfold timeupdate. cbn [listeners]. apply dispatch_idle. exact H.
Qed.

Lemma timeupdate_stops_at_end_time_witness :
  stopped (timeupdate (JS.Number 15 1)
             (playChunk (Some "blob:audio") 1 (shown, silentPlayer)))
  ∧ playingChunk
      (fst (timeupdate (JS.Number 1 0)
              (playChunk (Some "blob:audio") 0 (shown, silentPlayer))))
    = Some 0.
Proof.
  split.
  - apply timeupdate_stops_at_end_time. exists (JS.Number 15 1).
    split; [apply list_elem_of_In; left |]; reflexivity.
  - change (playChunk (Some "blob:audio") 0 (shown, silentPlayer))
      with (setPlayingChunk (Some 0) shown,
            {| src := "blob:audio"; currentTime := JS.Number 0 0;
               paused := false; listeners := [JS.Number 15 1] |}).
    rewrite (proj2 (timeupdate_stops_at_end_time _ _ (JS.Number 1 0))).
    + reflexivity.
    + repeat constructor.
Defined.

(** X18: [stopPlaying] pauses the element and marks no chunk as playing,
    but leaves the listeners of the element, and [playChunk] only adds
    one.  So when a chunk was played and stopped and another chunk is
    played, a [timeupdate] at a time that has reached the end time of the
    first chunk pauses the second, whatever its own end time. *)
Theorem stale_listener_stops_later_chunk t audio (url : string) (i j : nat)
  (first second : Chunk.t) now :
  currentChunks t !! i = Some first →
  currentChunks t !! j = Some second →
  Text.geq now (match snd (Chunk.timestamp first) with
                | Some e => e
                | None => fst (Chunk.timestamp first)
                end) = true →
  paused (snd (playChunk (Some url) i (t, audio))) = false
  ∧ playingChunk (fst (playChunk (Some url) i (t, audio))) = Some i
  ∧ paused (snd (stopPlaying (playChunk (Some url) i (t, audio)))) = true
  ∧ playingChunk (fst (stopPlaying (playChunk (Some url) i (t, audio))))
    = None
  ∧ listeners (snd (stopPlaying (playChunk (Some url) i (t, audio))))
    = listeners (snd (playChunk (Some url) i (t, audio)))
  ∧ paused
      (snd (playChunk (Some url) j
              (stopPlaying (playChunk (Some url) i (t, audio))))) = false
  ∧ stopped
      (timeupdate now
         (playChunk (Some url) j
            (stopPlaying (playChunk (Some url) i (t, audio))))).
Proof.
  intros Hi Hj Hnow. unfold playChunk at 1 2 3 4 5 6 8 10.
  rewrite chunkAt_currentChunks, Hi.
  cbn [stopPlaying fst snd pause listeners paused playingChunk
       setPlayingChunk].
  do 5 (split; [reflexivity |]).
  unfold playChunk.
  change (chunkAt (setPlayingChunk None (setPlayingChunk (Some i) t)) j)
    with (chunkAt t j).
  rewrite chunkAt_currentChunks, Hj.
  split; [reflexivity |].
  apply timeupdate_stops_at_end_time_aux.
  eexists. split; [| exact Hnow].
  cbn [listeners]. apply elem_of_app. left. apply elem_of_app. right.
  destruct (snd (Chunk.timestamp first)); apply list_elem_of_In; left;
    reflexivity.
Qed.

(** The first chunk ends at 1.5 and the second at 4: played after the
    first was stopped, the second is paused at 2. *)
Lemma stale_listener_stops_later_chunk_witness :
  paused (snd (stopPlaying (playChunk (Some "blob:audio") 0
                                      (timed, silentPlayer)))) = true
  ∧ stopped
      (timeupdate (JS.Number 2 0)
         (playChunk (Some "blob:audio") 1
            (stopPlaying (playChunk (Some "blob:audio") 0
                                    (timed, silentPlayer))))).
Proof.
  destruct (stale_listener_stops_later_chunk timed silentPlayer "blob:audio"
              0 1
              (Chunk.Make "Hello" (JS.Number 0 0, Some (JS.Number 15 1)))
              (Chunk.Make "world" (JS.Number 15 1, Some (JS.Number 4 0)))
              (JS.Number 2 0))
    as (_ & _ & Hpaused & _ & _ & _ & Hstopped);
    [reflexivity | reflexivity | reflexivity |].
  split; [exact Hpaused | exact Hstopped].
Defined.

End Player.

(** * The settings dialog *)

Section TitleCase.

Import AudioManager.

Implicit Types (s w rest : string) (c : ascii).

Lemma toLowerCaseUnit_facts c :
  Text.isWord (Text.toLowerCaseUnit c) = Text.isWord c
  ∧ Text.isLineTerminator (Text.toLowerCaseUnit c) = Text.isLineTerminator c.
Proof.
  destruct c as [[] [] [] [] [] [] [] []]; vm_compute; split; reflexivity.
Qed.

Lemma toLowerCase_app s1 s2 :
  Text.toLowerCase (s1 ++ s2) = Text.toLowerCase s1 ++ Text.toLowerCase s2.
Proof.
  induction s1 as [| c s1 IH]; [reflexivity |].
  change (String (Text.toLowerCaseUnit c) (Text.toLowerCase (s1 ++ s2))
          = String (Text.toLowerCaseUnit c)
                   (Text.toLowerCase s1 ++ Text.toLowerCase s2)).
  f_equal. exact IH.
Qed.

Lemma toLowerCase_length s :
  String.length (Text.toLowerCase s) = String.length s.
Proof. induction s as [| c s IH]; [reflexivity |]. simpl. now f_equal. Qed.

Lemma toLowerCase_word w :
  Forall (fun c => Text.isWord c = true) (list_ascii_of_string w) →
  Forall (fun c => Text.isWord c = true)
         (list_ascii_of_string (Text.toLowerCase w)).
Proof.
  induction w as [| c w IH]; intros H; [constructor |].
  apply Forall_cons in H as [Hc Hw].
  change (Forall (fun c => Text.isWord c = true)
            (Text.toLowerCaseUnit c
               :: list_ascii_of_string (Text.toLowerCase w))).
  constructor; [| auto].
  destruct (toLowerCaseUnit_facts c) as [-> _]. exact Hc.
Qed.

Lemma span_word w (tail : string) :
  Forall (fun c => Text.isWord c = true) (list_ascii_of_string w) →
  match tail with
  | String d _ => Text.isWord d = false
  | EmptyString => True
  end →
  Regex.span Text.isWord (w ++ tail) = (w, tail).
Proof. apply span_run. Qed.

Lemma wordMatches_skip (x r : string) :
  Text.wordMatches (String.length x) (x ++ r) = Text.wordMatches 0 r.
Proof.
  induction x as [| c x IH]; [reflexivity |].
  change (Text.wordMatches (S (String.length x)) (String c (x ++ r))
          = Text.wordMatches 0 r).
  cbn [Text.wordMatches]. exact IH.
Qed.

Lemma join_empty_cons (x : string) (l : list string) :
  JS.join "" (x :: l) = x ++ JS.join "" l.
Proof.
  destruct l as [| y l]; [symmetry; apply string_app_nil_r | reflexivity].
Qed.

(** The matches of a string that starts with a word. *)
Lemma wordMatches_word w (tail : string) :
  Text.isWordString w →
  match tail with
  | String d _ => Text.isWord d = false
  | EmptyString => True
  end →
  Text.wordMatches 0 (w ++ tail)
  = match tail with
    | String d rest =>
        if Text.isLineTerminator d
        then w :: Text.wordMatches 0 tail
        else (w ++ String d "") :: Text.wordMatches 0 rest
    | EmptyString => [w]
    end.
Proof.
  intros [Hne Hw] Htail. destruct w as [| c w]; [contradiction |].
  pose proof (span_word (String c w) tail Hw Htail) as Hspan.
  assert (Hc : Text.isWord c = true) by (apply Forall_cons in Hw; tauto).
  change (String c w ++ tail) with (String c (w ++ tail)) in *.
  cbn [Text.wordMatches]. rewrite Hc, Hspan.
  destruct tail as [| d rest].
  - replace (String.length (String c w) - 1) with (String.length w)
      by (simpl; lia).
    rewrite (wordMatches_skip w ""). reflexivity.
  - destruct (Text.isLineTerminator d).
    + replace (String.length (String c w) - 1) with (String.length w)
        by (simpl; lia).
      rewrite wordMatches_skip. reflexivity.
    + f_equal.
      replace (String.length (String c w ++ String d "") - 1)
        with (String.length (w ++ String d "")) by (simpl; lia).
      replace (w ++ String d rest) with ((w ++ String d "") ++ rest)
        by (rewrite string_app_assoc; reflexivity).
      apply wordMatches_skip.
Qed.

Lemma capitalize_app w (tail : string) :
  w ≠ "" → capitalize (w ++ tail) = capitalize w ++ tail.
Proof. destruct w; [contradiction | reflexivity]. Qed.

Lemma toLowerCase_isWordString w :
  Text.isWordString w → Text.isWordString (Text.toLowerCase w).
Proof.
  intros [Hne Hw]. split; [| apply toLowerCase_word; exact Hw].
  destruct w; [contradiction | discriminate].
Qed.

(** X19: [titleCase] writes a word in small letters with its first
    character in upper case, and keeps the code unit that follows the
    word (in lower case) when it ends no line: for a word [w] followed by
    such a unit and any rest, the result is the title-cased word, the
    unit, and the title case of the rest. *)
Theorem titleCase_word w :
  Text.isWordString w →
  titleCase w = capitalize (Text.toLowerCase w)
  ∧ ∀ (sep : ascii) rest,
      Text.isWord sep = false → Text.isLineTerminator sep = false →
      titleCase (w ++ String sep rest)
      = capitalize (Text.toLowerCase w)
          ++ String (Text.toLowerCaseUnit sep) (titleCase rest).
Proof.
  intros Hw. pose proof (toLowerCase_isWordString w Hw) as Hlw. split.
  - unfold titleCase.
    rewrite <- (string_app_nil_r (Text.toLowerCase w)) at 1.
    rewrite (wordMatches_word _ "" Hlw I). reflexivity.
  - intros sep rest Hsep Hline. unfold titleCase. rewrite toLowerCase_app.
    change (Text.toLowerCase (String sep rest))
      with (String (Text.toLowerCaseUnit sep) (Text.toLowerCase rest)).
    destruct (toLowerCaseUnit_facts sep) as [Hword Hlt].
    rewrite wordMatches_word; [| exact Hlw | rewrite Hword; exact Hsep].
    rewrite Hlt, Hline. cbn [List.map]. rewrite join_empty_cons.
    rewrite capitalize_app by apply Hlw.
    rewrite string_app_assoc. reflexivity.
Qed.

Lemma titleCase_word_witness :
  titleCase "SWEDISH" = "Swedish"
  ∧ titleCase ("haitian" ++ String " " "CREOLE")
    = "Haitian" ++ String " " (titleCase "CREOLE").
Proof.
  assert (Hw : ∀ w, w ≠ "" →
            forallb Text.isWord (list_ascii_of_string w) = true →
            Text.isWordString w).
  { intros w Hne H. split; [exact Hne |].
    apply Forall_forall. intros c Hc.
    apply forallb_forall with (x := c) in H; [exact H |].
    apply list_elem_of_In. exact Hc. }
  split.
  - apply (titleCase_word "SWEDISH"). apply Hw; [discriminate | reflexivity].
  - apply (titleCase_word "haitian"); try reflexivity.
    apply Hw; [discriminate | reflexivity].
Defined.

(** X20, for strings of code units below 256: [titleCase] drops every
    code unit that is no word character and does not follow a word
    directly, and a line end after a word: the empty string stays empty,
    such a unit in front changes nothing, and a word followed by a line
    end gives the word in title case and the title case of the rest. *)
Theorem titleCase_drops_stray_units :
  titleCase "" = ""
  ∧ (∀ c rest, Text.isWord c = false →
               titleCase (String c rest) = titleCase rest)
  ∧ (∀ w (lineEnd : ascii) rest,
       Text.isWordString w → Text.isLineTerminator lineEnd = true →
       titleCase (w ++ String lineEnd rest)
       = capitalize (Text.toLowerCase w) ++ titleCase rest).
Proof.
  split; [reflexivity |]. split.
  - intros c rest Hc. unfold titleCase.
    change (Text.toLowerCase (String c rest))
      with (String (Text.toLowerCaseUnit c) (Text.toLowerCase rest)).
    cbn [Text.wordMatches].
    destruct (toLowerCaseUnit_facts c) as [-> _]. rewrite Hc. reflexivity.
  - intros w lineEnd rest Hw Hline.
    pose proof (toLowerCase_isWordString w Hw) as Hlw.
    assert (Hnotword : Text.isWord lineEnd = false).
    { destruct lineEnd as [[] [] [] [] [] [] [] []];
        vm_compute in Hline |- *; congruence. }
    unfold titleCase. rewrite toLowerCase_app.
    change (Text.toLowerCase (String lineEnd rest))
      with (String (Text.toLowerCaseUnit lineEnd) (Text.toLowerCase rest)).
    destruct (toLowerCaseUnit_facts lineEnd) as [Hword Hlt].
    rewrite wordMatches_word; [| exact Hlw | rewrite Hword; exact Hnotword].
    rewrite Hlt, Hline. cbn [List.map Text.wordMatches].
    rewrite Hword, Hnotword, join_empty_cons. reflexivity.
Qed.

Lemma titleCase_drops_stray_units_witness :
  titleCase (String " " "norwegian") = titleCase "norwegian"
  ∧ titleCase ("a" ++ String " " (String " " "b")) = "A B".
Proof.
  destruct titleCase_drops_stray_units as (_ & Hdrop & _).
  split; [apply Hdrop; reflexivity |].
  vm_compute. reflexivity.
Defined.

End TitleCase.

Section LanguageSelect.

Import AudioManager.

Implicit Types (MODELS : gmap string (string * string)) (s : State).

(** X21: the language [select] of the settings dialog and the request of
    [start].  When the select is enabled, the model is listed without a
    language of its own and does not end in [".en"]; the select shows the
    language of the hook, and [start] sends the subtask and that language
    ([null] for ["auto"]).  For a model ending in [".en"] the select is
    disabled and [start] sends neither.  For a listed model with a
    language of its own that does not end in [".en"], the select is
    disabled and shows the language of the model, while [start] still
    sends the language of the hook. *)
Theorem language_select_and_request MODELS s (audioData : AudioBuffer.t) :
  ∃ audio sentSubtask sentLanguage,
    snd (step (Start (Some audioData)) s)
    = [Posted (transcribe audio (model s) (dtype s) (gpu s)
                          sentSubtask sentLanguage)]
    ∧ (languageSelectDisabled MODELS s = false →
       (∃ displayName, MODELS !! model s = Some (displayName, ""))
       ∧ languageSelectValue MODELS s = language s
       ∧ sentSubtask = Some (subtask s)
       ∧ sentLanguage
         = if String.eqb (language s) "auto" then None
           else Some (language s))
    ∧ (JS.endsWith (model s) ".en" = true →
       languageSelectDisabled MODELS s = true
       ∧ sentSubtask = None ∧ sentLanguage = None)
    ∧ (∀ displayName lang,
         MODELS !! model s = Some (displayName, lang) → lang ≠ "" →
         JS.endsWith (model s) ".en" = false →
         languageSelectDisabled MODELS s = true
         ∧ languageSelectValue MODELS s = lang
         ∧ sentLanguage
           = if String.eqb (language s) "auto" then None
             else Some (language s)).
Proof.
  destruct (mixdown_total audioData) as [audio Haudio].
  destruct (start_with_buffer s audioData audio Haudio) as (_ & Hout & _).
  exists audio. do 2 eexists. split; [exact Hout |].
  unfold languageSelectDisabled, languageSelectValue, isModelMultilingual,
    getModelLanguage.
  split; [| split].
  - intros Henabled. apply negb_false_iff, andb_true_iff in Henabled.
    destruct Henabled as [Hen Hlisted]. rewrite Hen. cbn [negb andb].
    destruct (MODELS !! model s) as [[displayName group] |]; [| discriminate].
    apply String.eqb_eq in Hlisted. subst group.
    split; [exists displayName; reflexivity |].
    destruct (String.eqb (language s) "auto"); repeat split; reflexivity.
  - intros Hen. rewrite Hen. repeat split; reflexivity.
  - intros displayName lang Hlisted Hlang Hen. rewrite Hlisted, Hen.
    apply String.eqb_neq in Hlang. rewrite Hlang.
    destruct (String.eqb (language s) "auto"); repeat split; reflexivity.
Qed.

Lemma language_select_and_request_witness :
  languageSelectDisabled sampleModels
    (after (SetModel "onnx-community/kb-whisper-tiny-ONNX") s0) = true
  ∧ languageSelectValue sampleModels
      (after (SetModel "onnx-community/kb-whisper-tiny-ONNX") s0) = "sv"
  ∧ languageSelectValue sampleModels s0 = language s0.
Proof.
  destruct (language_select_and_request sampleModels
              (after (SetModel "onnx-community/kb-whisper-tiny-ONNX") s0) mono)
    as (audio & st & lang & _ & _ & _ & Hown).
  destruct (Hown "kb-whisper-tiny" "sv") as (Hdisabled & Hvalue & _);
    [vm_compute; reflexivity | discriminate | vm_compute; reflexivity |].
  split; [exact Hdisabled |]. split; [exact Hvalue |].
  destruct (language_select_and_request sampleModels s0 mono)
    as (audio0 & st0 & lang0 & _ & Henabled & _).
  apply Henabled. vm_compute. reflexivity.
Defined.

End LanguageSelect.
